(** * The metadata query GUI of [eg/query-gui-mongodb.ipynb]

    A shallow embedding of the notebook's callbacks ([authenticate],
    [on_select_change], [handle_query], [on_button_click]) and of the widget
    set-up cells, as state transformers over the widget traits, the global
    [client] name and the log of what was written to the output regions and
    asked of the collaborators (database client, dataset loader). *)

From Stdlib Require Import ZArith String Ascii List Decimal DecimalString DecimalPos DecimalFacts.
From stdpp Require Import base option list gmap sets strings.

Local Open Scope string_scope.
Local Open Scope list_scope.

(** ** Python strings: [repr]

    Strings are sequences of characters with code point below 256: the
    ASCII characters and, from 128 on, those of the Latin-1 supplement. *)

Definition nl : string := String "010"%char EmptyString.
Definition squote : ascii := "039"%char.
Definition dquote : ascii := "034"%char.
Definition backslash : ascii := "092"%char.

Definition hex_digit (n : N) : ascii :=
  match n with
  | 0 => "0" | 1 => "1" | 2 => "2" | 3 => "3" | 4 => "4" | 5 => "5"
  | 6 => "6" | 7 => "7" | 8 => "8" | 9 => "9" | 10 => "a" | 11 => "b"
  | 12 => "c" | 13 => "d" | 14 => "e" | _ => "f"
  end%N%char.

Fixpoint contains (c : ascii) (s : string) : bool :=
  match s with
  | EmptyString => false
  | String d s' => if Ascii.eqb c d then true else contains c s'
  end.

(** [repr] of a [str] picks the quote: single quotes unless the text holds
    a single quote and no double quote. *)
Definition repr_quote (s : string) : ascii :=
  if contains squote s && negb (contains dquote s) then dquote else squote.

(** What [str.isprintable] denies below 256: the control characters, the
    no-break space and the soft hyphen. *)
Definition unprintable (c : ascii) : bool :=
  let n := N_of_ascii c in
  (n <? 32)%N || ((127 <=? n)%N && (n <=? 160)%N) || (n =? 173)%N.

Definition repr_char (q c : ascii) : string :=
  let n := N_of_ascii c in
  if Ascii.eqb c backslash then String backslash (String backslash EmptyString)
  else if Ascii.eqb c q then String backslash (String q EmptyString)
  else if (n =? 9)%N then String backslash "t"
  else if (n =? 10)%N then String backslash "n"
  else if (n =? 13)%N then String backslash "r"
  else if unprintable c
       then String backslash
              (String "x" (String (hex_digit (n / 16)) (String (hex_digit (n mod 16)) EmptyString)))
  else String c EmptyString.

Fixpoint repr_chars (q : ascii) (s : string) : string :=
  match s with
  | EmptyString => EmptyString
  | String c s' => repr_char q c +:+ repr_chars q s'
  end.

Definition repr_str (s : string) : string :=
  let q := repr_quote s in
  String q (repr_chars q s +:+ String q EmptyString).

(** ** Python literals: filters, printed and read

    A filter is a [dict] with [str] keys whose values are strings, integers,
    [True], [False], [None], a float that is not a number of finite size, or
    lists of those.  The finite floats are left out: the digits [repr] prints
    for one, and the float a text is read as, are matters of floating-point
    arithmetic.  [repr_filter] is [repr] on such a [dict]. *)

Inductive pyfloat : Type :=
  | Inf
  | NegInf
  | NaN.

Inductive scalar : Type :=
  | SStr (s : string)
  | SInt (z : Z)
  | SBool (b : bool)
  | SNone
  | SFloat (f : pyfloat).

Inductive pyvalue : Type :=
  | VScalar (x : scalar)
  | VList (l : list scalar).

Definition filter_dict : Type := list (string * pyvalue).

Definition repr_int (z : Z) : string :=
  match z with
  | Z0 => "0"
  | Zpos p => NilEmpty.string_of_uint (Pos.to_uint p)
  | Zneg p => String "-" (NilEmpty.string_of_uint (Pos.to_uint p))
  end.

Definition repr_float (f : pyfloat) : string :=
  match f with
  | Inf => "inf"
  | NegInf => "-inf"
  | NaN => "nan"
  end.

Definition repr_scalar (x : scalar) : string :=
  match x with
  | SStr s => repr_str s
  | SInt z => repr_int z
  | SBool true => "True"
  | SBool false => "False"
  | SNone => "None"
  | SFloat f => repr_float f
  end.

(** The elements of a display, separated by a comma and a space. *)
Fixpoint join_comma (l : list string) : string :=
  match l with
  | [] => EmptyString
  | [x] => x
  | x :: l' => x +:+ ", " +:+ join_comma l'
  end.

Definition repr_value (v : pyvalue) : string :=
  match v with
  | VScalar x => repr_scalar x
  | VList l => "[" +:+ join_comma (map repr_scalar l) +:+ "]"
  end.

Definition repr_entry (e : string * pyvalue) : string :=
  repr_str (fst e) +:+ ": " +:+ repr_value (snd e).

Definition repr_filter (d : filter_dict) : string :=
  "{" +:+ join_comma (map repr_entry d) +:+ "}".

(** [d[k] = v]: a present key keeps its place, a new one goes last. *)
Fixpoint dict_set {V} (d : list (string * V)) (k : string) (v : V) : list (string * V) :=
  match d with
  | [] => [(k, v)]
  | (k', v') :: d' => if String.eqb k k' then (k, v) :: d' else (k', v') :: dict_set d' k v
  end.

(** [d[k]]; [None] stands for the [KeyError]. *)
Fixpoint dict_get {V} (d : list (string * V)) (k : string) : option V :=
  match d with
  | [] => None
  | (k', v) :: d' => if String.eqb k k' then Some v else dict_get d' k
  end.

Definition keys {V} (d : list (string * V)) : list string := map fst d.

(** *** Reading

    [ast.literal_eval] reads far more than filters.  The reader below
    answers only where the answer is certain: it gives the filter a text of
    the fragment evaluates to, it says that evaluation raises where the text
    ends inside a display or a name stands where a literal must, and it
    leaves every other text undecided. *)

(** Why evaluation raises: the text ends too early (a [SyntaxError]), or a
    name that is no constant stands for a value (a [ValueError] when the
    text is an expression at all). *)
Inductive refusal : Type :=
  | Truncated
  | NotALiteral.

Inductive reading (A : Type) : Type :=
  | Got (a : A) (rest : string)
  | Refused (why : refusal)
  | Unread.
Arguments Got {A} a rest.
Arguments Refused {A} why.
Arguments Unread {A}.

Definition reading_map {A B} (f : A -> B) (r : reading A) : reading B :=
  match r with
  | Got a rest => Got (f a) rest
  | Refused why => Refused why
  | Unread => Unread
  end.

Definition is_space (c : ascii) : bool :=
  let n := N_of_ascii c in
  (n =? 32)%N || (n =? 9)%N || (n =? 10)%N || (n =? 13)%N.

Fixpoint skip_ws (s : string) : string :=
  match s with
  | String c s' => if is_space c then skip_ws s' else s
  | EmptyString => EmptyString
  end.

Definition is_digit (c : ascii) : bool :=
  let n := N_of_ascii c in (48 <=? n)%N && (n <=? 57)%N.

(** A character a name can start with, and one it can go on with. *)
Definition is_letter (c : ascii) : bool :=
  let n := N_of_ascii c in
  ((65 <=? n)%N && (n <=? 90)%N) || ((97 <=? n)%N && (n <=? 122)%N) || (n =? 95)%N.

Definition is_word (c : ascii) : bool := is_letter c || is_digit c.

Fixpoint span_digits (s : string) : string * string :=
  match s with
  | String c s' =>
      if is_digit c then let '(ds, rest) := span_digits s' in (String c ds, rest)
      else (EmptyString, s)
  | EmptyString => (EmptyString, EmptyString)
  end.

Fixpoint span_word (s : string) : string * string :=
  match s with
  | String c s' =>
      if is_word c then let '(w, rest) := span_word s' in (String c w, rest)
      else (EmptyString, s)
  | EmptyString => (EmptyString, EmptyString)
  end.

(** A decimal integer without sign and without leading zero. *)
Definition parse_digits (s : string) : reading Z :=
  let '(ds, rest) := span_digits s in
  match ds with
  | EmptyString => match s with
                   | EmptyString => Refused Truncated
                   | String _ _ => Unread
                   end
  | _ => match NilEmpty.uint_of_string ds with
         | Some u => if Decimal.uint_beq (Decimal.unorm u) u
                     then Got (Z.of_N (Pos.of_uint u)) rest else Unread
         | None => Unread
         end
  end.

(** An integer, with an optional minus sign.  A minus sign before a name
    negates no number. *)
Definition parse_int (s : string) : reading Z :=
  match s with
  | String c s' =>
      if Ascii.eqb c "-"
      then match s' with
           | String d _ =>
               if is_letter d then Refused NotALiteral
               else reading_map Z.opp (parse_digits s')
           | EmptyString => Refused Truncated
           end
      else parse_digits s
  | EmptyString => Refused Truncated
  end.

Definition hex_value (c : ascii) : option N :=
  let n := N_of_ascii c in
  if (48 <=? n)%N && (n <=? 57)%N then Some (n - 48)%N
  else if (97 <=? n)%N && (n <=? 102)%N then Some (n - 87)%N
  else if (65 <=? n)%N && (n <=? 70)%N then Some (n - 55)%N
  else None.

(** The one-character escapes the reader knows. *)
Definition unescape (c : ascii) : option ascii :=
  if Ascii.eqb c backslash then Some backslash
  else if Ascii.eqb c squote then Some squote
  else if Ascii.eqb c dquote then Some dquote
  else if Ascii.eqb c "n" then Some "010"%char
  else if Ascii.eqb c "t" then Some "009"%char
  else if Ascii.eqb c "r" then Some "013"%char
  else None.

(** A character the reader lets stand for itself inside a one-line string:
    a printable one, a tab, or another control character of ASCII that ends
    no line. *)
Definition raw_ok (c : ascii) : bool :=
  let n := N_of_ascii c in
  negb (n =? 0)%N && negb (n =? 10)%N && negb (n =? 13)%N
  && ((n <? 128)%N || negb (unprintable c)).

Definition push (c : ascii) (r : reading string) : reading string :=
  reading_map (String c) r.

(** The text of a string literal after its opening quote [q], up to the
    closing one. *)
Fixpoint parse_body (q : ascii) (s : string) : reading string :=
  match s with
  | EmptyString => Refused Truncated
  | String c s1 =>
      if Ascii.eqb c q then Got EmptyString s1
      else if Ascii.eqb c backslash then
        match s1 with
        | EmptyString => Refused Truncated
        | String e s2 =>
            if Ascii.eqb e "x" then
              match s2 with
              | String h1 (String h2 s3) =>
                  match hex_value h1, hex_value h2 with
                  | Some a, Some b => push (ascii_of_N (16 * a + b)) (parse_body q s3)
                  | _, _ => Unread
                  end
              | _ => Unread
              end
            else
              match unescape e with
              | Some c' => push c' (parse_body q s2)
              | None => Unread
              end
        end
      else if raw_ok c then push c (parse_body q s1)
      else Unread
  end.

Definition parse_str (s : string) : reading string :=
  match s with
  | String q s' =>
      if Ascii.eqb q squote || Ascii.eqb q dquote then parse_body q s' else Unread
  | EmptyString => Refused Truncated
  end.

(** A word where a value must stand: one of the three constants, or a name,
    which evaluation rejects.  A word that goes on with a quote or a
    parenthesis may be a prefixed string or a call and is not read. *)
Definition parse_name (s : string) : reading scalar :=
  let '(w, rest) := span_word s in
  if String.eqb w "True" then Got (SBool true) rest
  else if String.eqb w "False" then Got (SBool false) rest
  else if String.eqb w "None" then Got SNone rest
  else match rest with
       | String c _ =>
           if Ascii.eqb c squote || Ascii.eqb c dquote || Ascii.eqb c "("
           then Unread else Refused NotALiteral
       | EmptyString => Refused NotALiteral
       end.

Definition parse_scalar (s : string) : reading scalar :=
  match s with
  | EmptyString => Refused Truncated
  | String c _ =>
      if Ascii.eqb c squote || Ascii.eqb c dquote then reading_map SStr (parse_str s)
      else if is_letter c then parse_name s
      else reading_map SInt (parse_int s)
  end.

(** The elements of a list display after the opening bracket, up to the
    closing one; a trailing comma is allowed.  Every round reads at least one
    character, so the length of the text is fuel enough. *)
Fixpoint parse_items (fuel : nat) (s : string) (acc : list scalar)
  : reading (list scalar) :=
  match fuel with
  | O => Unread
  | S fuel' =>
      match parse_scalar s with
      | Refused why => Refused why
      | Unread => Unread
      | Got x s1 =>
          match skip_ws s1 with
          | String c s2 =>
              if Ascii.eqb c "]" then Got (acc ++ [x]) s2
              else if Ascii.eqb c "," then
                match skip_ws s2 with
                | String c' s3 =>
                    if Ascii.eqb c' "]" then Got (acc ++ [x]) s3
                    else parse_items fuel' (skip_ws s2) (acc ++ [x])
                | EmptyString => Refused Truncated
                end
              else Unread
          | EmptyString => Refused Truncated
          end
      end
  end.

Definition parse_value (s : string) : reading pyvalue :=
  match s with
  | EmptyString => Refused Truncated
  | String c s' =>
      if Ascii.eqb c "[" then
        match skip_ws s' with
        | String c' s2 =>
            if Ascii.eqb c' "]" then Got (VList []) s2
            else reading_map VList (parse_items (String.length s') (skip_ws s') [])
        | EmptyString => Refused Truncated
        end
      else reading_map VScalar (parse_scalar s)
  end.

(** The entries of a dict display after the opening brace. *)
Fixpoint parse_entries (fuel : nat) (s : string) (acc : filter_dict)
  : reading filter_dict :=
  match fuel with
  | O => Unread
  | S fuel' =>
      match parse_str s with
      | Refused why => Refused why
      | Unread => Unread
      | Got k s1 =>
          match skip_ws s1 with
          | String c s2 =>
              if Ascii.eqb c ":" then
                match parse_value (skip_ws s2) with
                | Refused why => Refused why
                | Unread => Unread
                | Got v s3 =>
                    match skip_ws s3 with
                    | String c' s4 =>
                        if Ascii.eqb c' "}" then Got (dict_set acc k v) s4
                        else if Ascii.eqb c' "," then
                          match skip_ws s4 with
                          | String c'' s5 =>
                              if Ascii.eqb c'' "}" then Got (dict_set acc k v) s5
                              else parse_entries fuel' (skip_ws s4) (dict_set acc k v)
                          | EmptyString => Refused Truncated
                          end
                        else Unread
                    | EmptyString => Refused Truncated
                    end
                end
              else Unread
          | EmptyString => Refused Truncated
          end
      end
  end.

Definition parse_filter (s : string) : reading filter_dict :=
  match s with
  | String c s' =>
      if Ascii.eqb c "{" then
        match skip_ws s' with
        | String c' s2 =>
            if Ascii.eqb c' "}" then Got [] s2
            else parse_entries (String.length s') (skip_ws s') []
        | EmptyString => Refused Truncated
        end
      else Unread
  | EmptyString => Refused Truncated
  end.

(** What the reader says of a whole text. *)
Inductive evaluation : Type :=
  | Evaluates (d : filter_dict)
  | Rejects (why : refusal)
  | Undecided.

(** [ast.literal_eval(text)] on the texts the reader decides: the display
    must open the text and only white space may follow it. *)
Definition literal_eval_filter (text : string) : evaluation :=
  match parse_filter text with
  | Got d rest => match skip_ws rest with
                  | EmptyString => Evaluates d
                  | String _ _ => Undecided
                  end
  | Refused why => Rejects why
  | Unread => Undecided
  end.


(** A scalar that is no float: a string, an integer, a truth value or
    [None]. *)
Definition plain_scalar (x : scalar) : bool :=
  match x with
  | SFloat _ => false
  | _ => true
  end.

Definition plain_value (v : pyvalue) : bool :=
  match v with
  | VScalar x => plain_scalar x
  | VList l => forallb plain_scalar l
  end.


(** An entry whose value is a scalar that is no float, or a list of such. *)
Definition plain_entry (e : string * pyvalue) : bool := plain_value (snd e).

(** [d[k] = v] for an entry [(k, v)]. *)
Definition set_entry (d : filter_dict) (e : string * pyvalue) : filter_dict :=
  dict_set d (fst e) (snd e).

(** The text after a number or a constant must not go on with a character
    of a word. *)
Definition no_word_head (s : string) : Prop :=
  match s with
  | String c _ => is_word c = false
  | EmptyString => True
  end.

(** The first character of a printed scalar that is no float: never a
    space, a bracket, a brace, a comma or a colon. *)
Definition value_start (c : ascii) : Prop :=
  c = squote ∨ c = dquote ∨ is_digit c = true ∨ c = "-"%char
  ∨ c = "T"%char ∨ c = "F"%char ∨ c = "N"%char.

(** ** Exceptions and outcomes

    Only instances of [Exception] are modelled, so [except Exception]
    catches every [exn]. *)

Inductive exn : Type :=
  | NameError (name : string)
  | KeyError (key : option string)
  | LibraryError (cls msg : string).

Inductive outcome (A : Type) : Type :=
  | Returned (a : A)
  | Raised (e : exn).
Arguments Returned {A} a.
Arguments Raised {A} e.

(** [str(e)], as the f-string in [authenticate] formats it. *)
Definition exn_str (e : exn) : string :=
  match e with
  | NameError name => "name '" +:+ name +:+ "' is not defined"
  | KeyError (Some k) => repr_str k
  | KeyError None => "None"
  | LibraryError _ msg => msg
  end.

(** ** The collaborators

    What the notebook imports and calls, none of it defined in its cells:
    [ast.literal_eval]; the database client [metadatabase.client.Client],
    that is its constructor, its [collection_names] mapping of store name to
    list of sub-collection names, and its [query] taking store,
    sub-collection and filter and returning a list of identifiers; and
    [iris.load].  They are parameters of the development.  A call may raise;
    [collection_names] is a [dict], kept as an association list in insertion
    order.

    The widgets come from [ipywidgets].  Its releases differ in one point
    that shows here, what a [Dropdown] with nothing selected does when it is
    given new options: up to release 7 it selects the first of them, from
    release 8 on it stays unselected.  [first_if_unselected] says which. *)

Class Collaborators : Type := {
  QueryDict : Type;
  CubeList : Type;
  Client : Type;
  literal_eval : string -> outcome QueryDict;
  Client_new : string -> outcome Client;
  collection_names : Client -> list (string * list string);
  client_query :
    Client -> option string -> option string -> QueryDict -> outcome (list string);
  iris_load : list string -> outcome CubeList;
  first_if_unselected : bool
}.

(** ** Widgets *)

Record Dropdown : Type := {
  dd_options : list string;
  dd_value : option string;
  dd_disabled : bool
}.

Record TextField : Type := {
  tx_value : string;
  tx_disabled : bool
}.

Record Button : Type := {
  bt_disabled : bool
}.

(** The [change] dictionary handed to an observer of a trait. *)
Record change : Type := {
  old : option string;
  new : option string
}.

Inductive region : Type := login_output | list_out | cl_out.

Global Instance region_eq_dec : EqDecision region.
Proof. solve_decision. Defined.

Section Gui.
Context {env : Collaborators}.

(** What an output region can hold. *)
Inductive item : Type :=
  | Text (s : string)
  | Files (l : list string)
  | Cubes (c : CubeList).

Inductive out_op : Type :=
  | Emit (i : item)
  | Clear (wait : bool).

(** The effects of the program, in the order they happen. *)
Inductive effect : Type :=
  | Out (r : region) (op : out_op)
  | Connect (conn_str : string)
  | Query (db_name coll_name : option string) (query_dict : QueryDict)
  | Load (files : list string).

Record GuiState : Type := {
  pw : TextField;
  login : Button;
  db : Dropdown;
  coll : Dropdown;
  query : TextField;
  search : Button;
  client : option Client;
  log : list effect
}.

(** *** Output regions

    [clear_output()] empties the region at once; [clear_output(wait=True)]
    empties it when the next output arrives. *)

Definition out_step (view : list item * bool) (op : out_op) : list item * bool :=
  match op with
  | Emit i => (if snd view then [i] else fst view ++ [i], false)
  | Clear false => ([], false)
  | Clear true => (fst view, true)
  end.

Definition ops_of (r : region) (l : list effect) : list out_op :=
  omap (fun e => match e with
                 | Out r' op => if decide (r' = r) then Some op else None
                 | _ => None
                 end) l.

(** The content of a region, and whether a clear is pending. *)
Definition view (r : region) (st : GuiState) : list item * bool :=
  fold_left out_step (ops_of r (log st)) ([], false).

Definition shown (r : region) (st : GuiState) : list item := fst (view r st).

(** A successful login is on record. *)
Definition logged_in (st : GuiState) : Prop :=
  Out login_output (Emit (Text "Successfully logged in.")) ∈ log st.

Definition loads (st : GuiState) : list (list string) :=
  omap (fun e => match e with Load files => Some files | _ => None end) (log st).

(** *** State and exception monad *)

Definition M (A : Type) : Type := GuiState -> outcome A * GuiState.

Definition ret {A} (a : A) : M A := fun st => (Returned a, st).
Definition raise {A} (e : exn) : M A := fun st => (Raised e, st).
Definition bind {A B} (m : M A) (k : A -> M B) : M B :=
  fun st => match m st with
            | (Returned a, st') => k a st'
            | (Raised e, st') => (Raised e, st')
            end.
Definition gets {A} (f : GuiState -> A) : M A := fun st => (Returned (f st), st).
Definition modify (f : GuiState -> GuiState) : M unit := fun st => (Returned tt, f st).
Definition lift {A} (r : outcome A) : M A := fun st => (r, st).

(** [try: body  except Exception as e: handler e  else: orelse] *)
Definition try_except_else {A} (body : M A) (handler : exn -> M unit) (orelse : M unit)
  : M unit :=
  fun st => match body st with
            | (Returned _, st') => orelse st'
            | (Raised e, st') => handler e st'
            end.

Notation "x <- m ;; k" := (bind m (fun x => k))
  (at level 100, m at next level, right associativity).
Notation "m ;;; k" := (bind m (fun _ => k))
  (at level 100, right associativity).

(** *** Trait updates *)

Definition set_db (d : Dropdown) (st : GuiState) : GuiState :=
  {| pw := pw st; login := login st; db := d; coll := coll st; query := query st;
     search := search st; client := client st; log := log st |}.

Definition set_coll (d : Dropdown) (st : GuiState) : GuiState :=
  {| pw := pw st; login := login st; db := db st; coll := d; query := query st;
     search := search st; client := client st; log := log st |}.

Definition set_pw (t : TextField) (st : GuiState) : GuiState :=
  {| pw := t; login := login st; db := db st; coll := coll st; query := query st;
     search := search st; client := client st; log := log st |}.

Definition set_query (t : TextField) (st : GuiState) : GuiState :=
  {| pw := pw st; login := login st; db := db st; coll := coll st; query := t;
     search := search st; client := client st; log := log st |}.

Definition set_search (b : Button) (st : GuiState) : GuiState :=
  {| pw := pw st; login := login st; db := db st; coll := coll st; query := query st;
     search := b; client := client st; log := log st |}.

Definition set_client (c : Client) (st : GuiState) : GuiState :=
  {| pw := pw st; login := login st; db := db st; coll := coll st; query := query st;
     search := search st; client := Some c; log := log st |}.

Definition record (e : effect) (st : GuiState) : GuiState :=
  {| pw := pw st; login := login st; db := db st; coll := coll st; query := query st;
     search := search st; client := client st; log := log st ++ [e] |}.

(** [print] and [display] inside [with r:], and [r.clear_output]. *)
Definition print (r : region) (s : string) : M unit := modify (record (Out r (Emit (Text s)))).
Definition display (r : region) (i : item) : M unit := modify (record (Out r (Emit i))).
Definition clear_output (r : region) (wait : bool) : M unit :=
  modify (record (Out r (Clear wait))).

(** The value of a [Dropdown] once options other than its present ones have
    arrived: the first option, [None] when there is none; a dropdown with
    nothing selected takes the first option or stays as it is, by the release
    of the toolkit. *)
Definition reselect (opts : list string) (d : Dropdown) : option string :=
  match dd_value d with
  | Some _ => head opts
  | None => if first_if_unselected then head opts else None
  end.

(** [d.set_trait("options", opts)] as far as the traits of [d] go.  A trait
    set to a value equal to the one it has is left alone: nothing is
    selected anew and no observer hears of it.  Otherwise the options are
    replaced and the selection is made anew; the widget keeps its other
    traits. *)
Definition with_options (opts : list string) (d : Dropdown) : Dropdown :=
  if decide (opts = dd_options d) then d
  else {| dd_options := opts; dd_value := reselect opts d; dd_disabled := dd_disabled d |}.

Definition with_value (v : option string) (d : Dropdown) : Dropdown :=
  {| dd_options := dd_options d; dd_value := v; dd_disabled := dd_disabled d |}.

Definition with_text (s : string) (t : TextField) : TextField :=
  {| tx_value := s; tx_disabled := tx_disabled t |}.

Definition with_disabled (b : bool) (t : TextField) : TextField :=
  {| tx_value := tx_value t; tx_disabled := b |}.

(** *** Calls to the collaborators, each recorded in the log *)

(** The global name [client]: unbound until [authenticate] assigns it. *)
Definition get_client : M Client :=
  fun st => match client st with
            | Some c => (Returned c, st)
            | None => (Raised (NameError "client"), st)
            end.

Definition call_Client (conn_str : string) : M Client :=
  modify (record (Connect conn_str)) ;;; lift (Client_new conn_str).

Definition call_query (c : Client) (db_name coll_name : option string) (query_dict : QueryDict)
  : M (list string) :=
  modify (record (Query db_name coll_name query_dict)) ;;;
  lift (client_query c db_name coll_name query_dict).

Definition call_load (files : list string) : M CubeList :=
  modify (record (Load files)) ;;; lift (iris_load files).

(** [d[key]] where [key] may be [None], which no [str]-keyed [dict] holds. *)
Definition subscript {V} (d : list (string * V)) (key : option string) : M V :=
  match key with
  | None => raise (KeyError None)
  | Some k => match dict_get d k with
              | Some v => ret v
              | None => raise (KeyError (Some k))
              end
  end.

(** ** The callbacks *)

(** [coll.set_trait("options", ...)]: no observer is registered on [coll]. *)
Definition coll_set_options (opts : list string) : M unit :=
  modify (fun st => set_coll (with_options opts (coll st)) st).

Definition on_select_change (event : change) : M unit :=
  c <- get_client ;;
  names <- subscript (collection_names c) (new event) ;;
  coll_set_options names.

(** A new value for [db]: [db.observe(on_select_change, names="value")]
    makes the toolkit call [on_select_change], inside the assignment and
    with the change as argument, whenever the value differs from the old
    one.  An exception of the observer leaves through the assignment. *)
Definition db_set_value (v : option string) : M unit :=
  before <- gets (fun st => dd_value (db st)) ;;
  modify (fun st => set_db (with_value v (db st)) st) ;;;
  if decide (before = v) then ret tt
  else on_select_change {| old := before; new := v |}.

(** [db.set_trait("options", ...)]: options equal to the present ones
    change nothing; otherwise the options are replaced and the selection is
    made anew, which may be a new value for [db]. *)
Definition db_set_options (opts : list string) : M unit :=
  present <- gets (fun st => dd_options (db st)) ;;
  if decide (opts = present) then ret tt
  else
    v <- gets (fun st => reselect opts (db st)) ;;
    modify (fun st => set_db {| dd_options := opts; dd_value := dd_value (db st);
                                dd_disabled := dd_disabled (db st) |} st) ;;;
    db_set_value v.

Definition conn_str_of (password : string) : string :=
  "mongodb+srv://iris:" +:+ password +:+
  "@iris-example-data.omfld.mongodb.net/?retryWrites=true&w=majority".

(** The body of the [try] in [authenticate]. *)
Definition authenticate_try : M unit :=
  password <- gets (fun st => tx_value (pw st)) ;;
  c <- call_Client (conn_str_of password) ;;
  modify (set_client c) ;;;
  let db_names := keys (collection_names c) in
  db_set_options db_names ;;;
  modify (fun st => set_query (with_disabled false (query st)) st) ;;;
  modify (set_search {| bt_disabled := false |}).

Definition login_failed (e : exn) : string :=
  "Login unsuccessful. Original error was:" +:+ nl +:+ exn_str e.

Definition login_ok : string := "Successfully logged in.".

Definition authenticate : M unit :=
  try_except_else authenticate_try
    (fun e => print login_output (login_failed e))
    (print login_output login_ok).

(** [list(set(result))]. *)
Definition dedup (result : list string) : list string :=
  elements (list_to_set result : gset string).

(** Truth value of [len(result)]. *)
Definition len_true {A} (l : list A) : bool := negb (Nat.eqb (length l) 0).

Definition handle_query (db_name coll_name : option string) (query_dict : QueryDict)
  : M unit :=
  c <- get_client ;;
  raw <- call_query c db_name coll_name query_dict ;;
  let result := dedup raw in
  clear_output list_out false ;;;
  (if len_true result then
     print list_out "Matching files:" ;;;
     display list_out (Files result) ;;;
     print list_out (nl +:+ "Iris Cubes:")
   else
     print list_out "No results.") ;;;
  if len_true result then
    clear_output cl_out false ;;;
    print cl_out "..." ;;;
    cl <- call_load result ;;
    clear_output cl_out true ;;;
    display cl_out (Cubes cl)
  else ret tt.

(** *** The states [handle_query] passes through *)

(** The state after the listing has been written. *)
Definition listed (db_name coll_name : option string) (query_dict : QueryDict)
    (raw : list string) (st : GuiState) : GuiState :=
  let st1 := record (Out list_out (Clear false))
               (record (Query db_name coll_name query_dict) st) in
  if len_true (dedup raw)
  then record (Out list_out (Emit (Text (nl +:+ "Iris Cubes:"))))
         (record (Out list_out (Emit (Files (dedup raw))))
            (record (Out list_out (Emit (Text "Matching files:"))) st1))
  else record (Out list_out (Emit (Text "No results."))) st1.

(** The state once the placeholder is up and the loader has been called. *)
Definition loading (files : list string) (st : GuiState) : GuiState :=
  record (Load files)
    (record (Out cl_out (Emit (Text "...")))
       (record (Out cl_out (Clear false)) st)).

Definition rendered (cl : CubeList) (st : GuiState) : GuiState :=
  record (Out cl_out (Emit (Cubes cl))) (record (Out cl_out (Clear true)) st).

Definition on_button_click : M unit :=
  db_name <- gets (fun st => dd_value (db st)) ;;
  coll_name <- gets (fun st => dd_value (coll st)) ;;
  text <- gets (fun st => tx_value (query st)) ;;
  query_dict <- lift (literal_eval text) ;;
  handle_query db_name coll_name query_dict.

(** *** Observations on a state *)

(** The [disabled] traits of the six widgets. *)
Definition disabled_flags (st : GuiState) : list bool :=
  [tx_disabled (pw st); bt_disabled (login st); dd_disabled (db st);
   dd_disabled (coll st); tx_disabled (query st); bt_disabled (search st)].

Definition widgets (st : GuiState)
  : TextField * Button * Dropdown * Dropdown * TextField * Button :=
  (pw st, login st, db st, coll st, query st, search st).

(** [st'] comes after [st]: its log continues the log of [st]. *)
Definition extends (st st' : GuiState) : Prop := ∃ l, log st' = log st ++ l.

(** ** The widgets as the set-up cells create them, and the user's events *)

Definition log_in_first : string := "Log in first...".

Definition init : GuiState :=
  {| pw := {| tx_value := EmptyString; tx_disabled := false |};
     login := {| bt_disabled := false |};
     db := {| dd_options := [log_in_first]; dd_value := Some log_in_first;
              dd_disabled := false |};
     coll := {| dd_options := [log_in_first]; dd_value := Some log_in_first;
                dd_disabled := false |};
     query := {| tx_value := EmptyString; tx_disabled := true |};
     search := {| bt_disabled := true |};
     client := None;
     log := [] |}.

(** What the user can do.  A disabled widget takes no input, and a dropdown
    only offers its options. *)
Inductive event : Type :=
  | TypePassword (s : string)
  | ClickLogin
  | SelectDb (v : string)
  | SelectColl (v : string)
  | TypeQuery (s : string)
  | ClickSearch.

Global Instance event_eq_dec : EqDecision event.
Proof. solve_decision. Defined.

Definition dispatch (ev : event) : M unit :=
  fun st =>
    match ev with
    | TypePassword s =>
        if tx_disabled (pw st) then ret tt st
        else modify (set_pw (with_text s (pw st))) st
    | ClickLogin =>
        if bt_disabled (login st) then ret tt st else authenticate st
    | SelectDb v =>
        if dd_disabled (db st) then ret tt st
        else if decide (v ∈ dd_options (db st)) then db_set_value (Some v) st
        else ret tt st
    | SelectColl v =>
        if dd_disabled (coll st) then ret tt st
        else if decide (v ∈ dd_options (coll st))
             then modify (set_coll (with_value (Some v) (coll st))) st
        else ret tt st
    | TypeQuery s =>
        if tx_disabled (query st) then ret tt st
        else modify (set_query (with_text s (query st))) st
    | ClickSearch =>
        if bt_disabled (search st) then ret tt st else on_button_click st
    end.

(** An exception that leaves a callback is reported by the kernel; the
    widgets keep the state the callback left, and the next event is served. *)
Definition step (st : GuiState) (ev : event) : GuiState := snd (dispatch ev st).

Definition run (evs : list event) : GuiState := fold_left step evs init.

(** What holds of every state the widgets can be brought into: the two
    selectors, the password field and the login button are enabled; the
    query field or the search button is enabled only after a successful
    login; and so is a bound client that knows a store. *)
Definition consistent (st : GuiState) : Prop :=
  dd_disabled (db st) = false ∧ dd_disabled (coll st) = false
  ∧ tx_disabled (pw st) = false ∧ bt_disabled (login st) = false
  ∧ (tx_disabled (query st) = false ∨ bt_disabled (search st) = false → logged_in st)
  ∧ (∀ c, client st = Some c → collection_names c ≠ [] → logged_in st).

(** What holds of the session in every state the widgets can reach: while
    the global [client] is unbound the store selector still shows its one
    placeholder and the search button is disabled; once it is bound the
    store selector offers the stores of the bound client. *)
Definition session_ok (st : GuiState) : Prop :=
  match client st with
  | Some c => dd_options (db st) = keys (collection_names c)
  | None => dd_options (db st) = [log_in_first]
            ∧ dd_value (db st) = Some log_in_first
            ∧ bt_disabled (search st) = true
  end.

(** How often the login button is clicked in a sequence of events. *)
Fixpoint login_clicks (evs : list event) : nat :=
  match evs with
  | [] => 0
  | ev :: evs' => (if decide (ev = ClickLogin) then 1 else 0) + login_clicks evs'
  end.

End Gui.

(** ** A small deployment

    One database service with two stores, used to run the callbacks on
    concrete inputs.  The service accepts one password; a query with a
    [standard_name] key finds the records [raw], any other finds nothing;
    the loader opens a file unless the file is named in [broken].  The
    widgets are those of [ipywidgets] 7. *)

Record demo_client : Type := {
  dc_names : list (string * list string)
}.

Definition demo_names : list (string * list string) :=
  [("S1", ["obs"; "model"]); ("S2", ["pp"; "netcdf"; "grib"])].

Definition demo_password : string := "secret".

Definition demo_Client_new (names : list (string * list string)) (conn_str : string)
  : outcome demo_client :=
  if String.eqb conn_str (conn_str_of demo_password)
  then Returned {| dc_names := names |}
  else Raised (LibraryError "ConfigurationError" "bad auth : Authentication failed.").

(** The deployment takes queries of the fragment the reader decides, and
    turns every other text away. *)
Definition demo_literal_eval (text : string) : outcome filter_dict :=
  match literal_eval_filter text with
  | Evaluates d => Returned d
  | Rejects Truncated => Raised (LibraryError "SyntaxError" "invalid syntax")
  | Rejects NotALiteral | Undecided =>
      Raised (LibraryError "ValueError" "malformed node or string")
  end.

Definition demo_query (raw : list string) (c : demo_client) (db_name coll_name : option string)
    (query_dict : filter_dict) : outcome (list string) :=
  match dict_get query_dict "standard_name" with
  | Some _ => Returned raw
  | None => Returned []
  end.

Definition demo_load (broken : list string) (files : list string)
  : outcome (list string) :=
  if forallb (fun f => negb (existsb (String.eqb f) broken)) files
  then Returned (map (fun f => "cube from " +:+ f) files)
  else Raised (LibraryError "ValueError" "not a recognised file format").

Definition demo (names : list (string * list string)) (raw broken : list string)
  : Collaborators :=
  {| QueryDict := filter_dict;
     CubeList := list string;
     Client := demo_client;
     literal_eval := demo_literal_eval;
     Client_new := demo_Client_new names;
     collection_names := dc_names;
     client_query := demo_query raw;
     iris_load := demo_load broken;
     first_if_unselected := true |}.

Definition demo_raw : list string := ["a.pp"; "a.pp"; "b.pp"].

(** The service with duplicated hits, with no hit, and with a file the
    loader cannot read; and a service that has no store yet. *)
Definition demo_env : Collaborators := demo demo_names demo_raw [].
Definition demo_env_empty : Collaborators := demo demo_names [] [].
Definition demo_env_broken : Collaborators := demo demo_names demo_raw ["b.pp"].
Definition demo_env_bare : Collaborators := demo [] demo_raw [].

(** The user types the password and logs in. *)
Definition demo_login : list event := [TypePassword demo_password; ClickLogin].

Definition demo_query_dict : filter_dict :=
  [("standard_name", VScalar (SStr "air_temperature"))].

(** The service when the database is down: every query raises. *)
Definition demo_env_down : Collaborators :=
  {| QueryDict := filter_dict;
     CubeList := list string;
     Client := demo_client;
     literal_eval := demo_literal_eval;
     Client_new := demo_Client_new demo_names;
     collection_names := dc_names;
     client_query := fun _ _ _ _ =>
       Raised (LibraryError "ServerSelectionTimeoutError" "connection closed");
     iris_load := demo_load [];
     first_if_unselected := true |}.

(** * Python literals: printing, then reading *)

(** ** Strings *)

Lemma append_cons c (a b : string) : String c a +:+ b = String c (a +:+ b).
Proof. reflexivity. Qed.

Lemma append_nil (b : string) : EmptyString +:+ b = b.
Proof. reflexivity. Qed.

Lemma append_assoc (a b c : string) : (a +:+ b) +:+ c = a +:+ (b +:+ c).
Proof.
  induction a as [|x a IH]; [reflexivity|].
  rewrite !append_cons. by rewrite IH.
Qed.

Lemma length_append (a b : string) :
  String.length (a +:+ b) = String.length a + String.length b.
Proof.
  induction a as [|x a IH]; [reflexivity|].
  rewrite append_cons. simpl. by rewrite IH.
Qed.

(** Brings the literal prefix of an appended text to the front. *)
Ltac norm_app :=
  repeat (rewrite append_assoc || rewrite append_cons || rewrite append_nil).

(** Every character, printed by [repr], is read back as itself. *)
Lemma parse_body_repr_char q c rest :
  q = squote ∨ q = dquote →
  parse_body q (repr_char q c +:+ rest) = push c (parse_body q rest).
Proof.
  intros [-> | ->]; destruct c as [[] [] [] [] [] [] [] []]; reflexivity.
Qed.

Lemma parse_body_repr_chars q s rest :
  q = squote ∨ q = dquote →
  parse_body q (repr_chars q s +:+ String q rest) = Got s rest.
Proof.
  intros Hq. induction s as [|c s IH]; simpl.
  - by rewrite Ascii.eqb_refl.
  - rewrite append_assoc.
    rewrite (parse_body_repr_char q c _ Hq), IH. reflexivity.
Qed.

Lemma repr_quote_cases s : repr_quote s = squote ∨ repr_quote s = dquote.
Proof. unfold repr_quote. destruct (_ && _); auto. Qed.

Lemma parse_str_repr s rest : parse_str (repr_str s +:+ rest) = Got s rest.
Proof.
  unfold repr_str. norm_app. unfold parse_str.
  destruct (repr_quote_cases s) as [Hq|Hq]; rewrite Hq; simpl;
    apply parse_body_repr_chars; auto.
Qed.

(** ** Integers *)

Lemma no_word_no_digit rest :
  no_word_head rest →
  match rest with String c _ => is_digit c = false | EmptyString => True end.
Proof.
  destruct rest as [|c rest]; [done|]. simpl. unfold is_word.
  by intros [_ ?]%orb_false_elim.
Qed.

Lemma span_digits_uint u rest :
  no_word_head rest →
  span_digits (NilEmpty.string_of_uint u +:+ rest) = (NilEmpty.string_of_uint u, rest).
Proof.
  intros Hrest%no_word_no_digit. induction u; simpl NilEmpty.string_of_uint; norm_app;
    try (simpl; rewrite IHu; reflexivity).
  destruct rest as [|c rest]; [reflexivity|]. simpl in *. by rewrite Hrest.
Qed.

Lemma uint_beq_refl u : uint_beq u u = true.
Proof. induction u; simpl; auto. Qed.

Lemma unorm_to_uint p : unorm (Pos.to_uint p) = Pos.to_uint p.
Proof.
  rewrite <- (Unsigned.to_of (Pos.to_uint p)), Unsigned.of_to. reflexivity.
Qed.

Lemma string_of_uint_nonempty u :
  u ≠ Nil → ∃ c s, NilEmpty.string_of_uint u = String c s ∧ is_digit c = true.
Proof. destruct u; [done|..]; intros _; simpl; eauto. Qed.

Lemma parse_digits_pos p rest :
  no_word_head rest →
  parse_digits (NilEmpty.string_of_uint (Pos.to_uint p) +:+ rest) = Got (Zpos p) rest.
Proof.
  intros Hrest. unfold parse_digits. rewrite (span_digits_uint _ _ Hrest).
  destruct (string_of_uint_nonempty (Pos.to_uint p) (Unsigned.to_uint_nonnil p))
    as (c & s & Hcs & _).
  rewrite Hcs, <- Hcs, NilEmpty.usu, unorm_to_uint, uint_beq_refl, Unsigned.of_to.
  reflexivity.
Qed.

Lemma digit_no_letter c : is_digit c = true → is_letter c = false.
Proof. destruct c as [[] [] [] [] [] [] [] []]; first [discriminate|reflexivity]. Qed.

Lemma parse_int_repr z rest :
  no_word_head rest → parse_int (repr_int z +:+ rest) = Got z rest.
Proof.
  intros Hrest. destruct z as [|p|p]; simpl repr_int.
  - norm_app. unfold parse_int, parse_digits. simpl.
    apply no_word_no_digit in Hrest.
    destruct rest as [|c rest]; [reflexivity|]. simpl in *. by rewrite Hrest.
  - pose proof (parse_digits_pos p rest Hrest) as Hp.
    destruct (string_of_uint_nonempty (Pos.to_uint p) (Unsigned.to_uint_nonnil p))
      as (c & s & Hcs & Hc).
    rewrite Hcs in *. norm_app. rewrite append_cons in Hp. unfold parse_int.
    destruct (Ascii.eqb_spec c "-") as [->|_]; [discriminate Hc|exact Hp].
  - pose proof (parse_digits_pos p rest Hrest) as Hp.
    destruct (string_of_uint_nonempty (Pos.to_uint p) (Unsigned.to_uint_nonnil p))
      as (c & s & Hcs & Hc).
    norm_app. unfold parse_int. change (Ascii.eqb "-" "-") with true. cbv iota.
    rewrite Hcs in *. rewrite append_cons in *.
    by rewrite (digit_no_letter _ Hc), Hp.
Qed.

(** ** Scalars *)

Lemma repr_quote_head s :
  ∃ q t, repr_str s = String q t ∧ (q = squote ∨ q = dquote).
Proof. unfold repr_str. eexists _, _. split; [reflexivity|apply repr_quote_cases]. Qed.

Lemma repr_int_head z :
  ∃ c t, repr_int z = String c t ∧ (is_digit c = true ∨ c = "-"%char).
Proof.
  destruct z as [|p|p]; simpl; [by eauto| |by eauto].
  destruct (string_of_uint_nonempty (Pos.to_uint p) (Unsigned.to_uint_nonnil p))
    as (c & s & Hcs & Hc). eauto.
Qed.

Lemma repr_scalar_head x :
  plain_scalar x = true → ∃ c t, repr_scalar x = String c t ∧ value_start c.
Proof.
  unfold value_start. destruct x as [s|z|[]| |f]; simpl; [..|discriminate]; intros _.
  - destruct (repr_quote_head s) as (q & t & -> & Hq).
    exists q, t. split; [reflexivity|tauto].
  - destruct (repr_int_head z) as (c & t & -> & Hc).
    exists c, t. split; [reflexivity|tauto].
  - eexists _, _. split; [reflexivity|tauto].
  - eexists _, _. split; [reflexivity|tauto].
  - eexists _, _. split; [reflexivity|tauto].
Qed.

Lemma parse_scalar_quote c t :
  c = squote ∨ c = dquote →
  parse_scalar (String c t) = reading_map SStr (parse_str (String c t)).
Proof. intros [-> | ->]; reflexivity. Qed.

Lemma parse_scalar_number c t :
  is_digit c = true ∨ c = "-"%char →
  parse_scalar (String c t) = reading_map SInt (parse_int (String c t)).
Proof.
  intros [Hc | ->]; [|reflexivity].
  unfold parse_scalar. rewrite (digit_no_letter _ Hc).
  destruct c as [[] [] [] [] [] [] [] []]; first [discriminate Hc|reflexivity].
Qed.

Lemma span_word_rest rest : no_word_head rest → span_word rest = (EmptyString, rest).
Proof. destruct rest as [|c rest]; [done|]. simpl. by intros ->. Qed.

(** The three constants, read back before a text that goes on with no
    character of a word. *)
Lemma parse_scalar_constant x rest :
  x = SBool true ∨ x = SBool false ∨ x = SNone →
  no_word_head rest →
  parse_scalar (repr_scalar x +:+ rest) = Got x rest.
Proof.
  intros Hx Hrest. pose proof (span_word_rest rest Hrest) as Hw.
  destruct Hx as [->|[->| ->]]; simpl repr_scalar; norm_app;
    unfold parse_scalar, parse_name; simpl; by rewrite Hw.
Qed.

Lemma parse_scalar_repr x rest :
  plain_scalar x = true → no_word_head rest →
  parse_scalar (repr_scalar x +:+ rest) = Got x rest.
Proof.
  intros Hx Hrest. destruct x as [s|z|[]| |f];
    [| |apply parse_scalar_constant; auto..|discriminate].
  - simpl repr_scalar. pose proof (parse_str_repr s rest) as Hp.
    destruct (repr_quote_head s) as (q & t & Hqt & Hq). rewrite Hqt in *.
    rewrite append_cons in *. by rewrite (parse_scalar_quote _ _ Hq), Hp.
  - simpl repr_scalar. pose proof (parse_int_repr z rest Hrest) as Hp.
    destruct (repr_int_head z) as (c & t & Hct & Hc). rewrite Hct in *.
    rewrite append_cons in *. by rewrite (parse_scalar_number _ _ Hc), Hp.
Qed.

(** ** Displays *)

Lemma value_start_plain c :
  value_start c →
  is_space c = false ∧ Ascii.eqb c "]" = false ∧ Ascii.eqb c "}" = false
  ∧ Ascii.eqb c "[" = false.
Proof.
  unfold value_start. intros Hc.
  assert (Hne : ∀ d, is_digit d = false → d ≠ squote → d ≠ dquote → d ≠ "-"%char →
                d ≠ "T"%char → d ≠ "F"%char → d ≠ "N"%char → c ≠ d).
  { intros d Hd ? ? ? ? ? ? ->. destruct Hc as [?|[?|[?|[?|[?|[?|?]]]]]]; congruence. }
  repeat split.
  - destruct Hc as [->|[->|[Hc|[->|[->|[->| ->]]]]]]; try reflexivity.
    unfold is_digit, is_space in *. destruct (N_of_ascii c) as [|p]; [done|].
    apply andb_prop in Hc as [H1 H2]. apply N.leb_le in H1, H2.
    repeat (apply orb_false_intro); apply N.eqb_neq; lia.
  - apply Ascii.eqb_neq, Hne; done.
  - apply Ascii.eqb_neq, Hne; done.
  - apply Ascii.eqb_neq, Hne; done.
Qed.

Lemma skip_ws_plain c t : is_space c = false → skip_ws (String c t) = String c t.
Proof. intros Hc. simpl. by rewrite Hc. Qed.

Lemma parse_items_step fuel s acc x s1 :
  parse_scalar s = Got x s1 →
  parse_items (S fuel) s acc =
  match skip_ws s1 with
  | String c s2 =>
      if Ascii.eqb c "]" then Got (acc ++ [x]) s2
      else if Ascii.eqb c "," then
        match skip_ws s2 with
        | String c' s3 =>
            if Ascii.eqb c' "]" then Got (acc ++ [x]) s3
            else parse_items fuel (skip_ws s2) (acc ++ [x])
        | EmptyString => Refused Truncated
        end
      else Unread
  | EmptyString => Refused Truncated
  end.
Proof. intros Hx. simpl. by rewrite Hx. Qed.

Lemma join_comma_cons {A} (f : A → string) x y l :
  join_comma (map f (x :: y :: l)) = f x +:+ ", " +:+ join_comma (map f (y :: l)).
Proof. reflexivity. Qed.

Lemma join_scalars_head l rest :
  l ≠ [] → forallb plain_scalar l = true →
  ∃ c t, join_comma (map repr_scalar l) +:+ rest = String c t ∧ value_start c.
Proof.
  destruct l as [|x l]; [done|]. intros _ [Hx _]%andb_prop.
  destruct (repr_scalar_head x Hx) as (c & t & Hct & Hc).
  destruct l as [|y l].
  - simpl map. simpl join_comma. rewrite Hct. norm_app. eauto.
  - rewrite join_comma_cons, Hct. norm_app. eauto.
Qed.

Lemma parse_items_repr l : ∀ acc fuel rest,
  l ≠ [] → (length l <= fuel)%nat → forallb plain_scalar l = true →
  parse_items fuel (join_comma (map repr_scalar l) +:+ String "]" rest) acc
  = Got (acc ++ l) rest.
Proof.
  induction l as [|x l IH]; [done|].
  intros acc fuel rest _ Hfuel [Hx Hl]%andb_prop.
  destruct fuel as [|fuel]; [simpl in Hfuel; lia|].
  destruct l as [|y l].
  - simpl map. simpl join_comma.
    rewrite (parse_items_step _ _ _ x (String "]" rest));
      [reflexivity|by apply parse_scalar_repr].
  - rewrite join_comma_cons. norm_app.
    rewrite (parse_items_step _ _ _ x
               (String "," (String " " (join_comma (map repr_scalar (y :: l))
                                        +:+ String "]" rest))));
      [|by apply parse_scalar_repr].
    destruct (join_scalars_head (y :: l) (String "]" rest)) as (c & t & Hct & Hc);
      [done|done|].
    change (skip_ws (String "," ?s)) with (String "," s).
    cbv iota beta. change (Ascii.eqb "," "]") with false.
    change (Ascii.eqb "," ",") with true. cbv iota.
    change (skip_ws (String " " ?s)) with (skip_ws s).
    rewrite Hct.
    destruct (value_start_plain c Hc) as (Hsp & Hbr & _).
    rewrite (skip_ws_plain _ _ Hsp), Hbr, <- Hct.
    rewrite (IH (acc ++ [x]) fuel rest); [|done|simpl in *; lia|done].
    by rewrite <- app_assoc.
Qed.

Lemma join_comma_length {A} (f : A → string) l :
  (∀ x, f x ≠ EmptyString) →
  (length l <= String.length (join_comma (map f l)))%nat.
Proof.
  intros Hf. induction l as [|x l IH]; [simpl; lia|].
  assert (Hx : (1 <= String.length (f x))%nat).
  { specialize (Hf x). destruct (f x); [done|simpl; lia]. }
  destruct l as [|y l].
  - simpl. lia.
  - rewrite join_comma_cons, !length_append. simpl in *. lia.
Qed.

Lemma repr_scalar_nonempty x : repr_scalar x ≠ EmptyString.
Proof.
  destruct (plain_scalar x) eqn:Hx.
  - destruct (repr_scalar_head x Hx) as (c & t & -> & _). done.
  - destruct x as [| | | |[]]; done.
Qed.

Lemma parse_value_scalar c t :
  Ascii.eqb c "[" = false →
  parse_value (String c t) = reading_map VScalar (parse_scalar (String c t)).
Proof. intros Hc. unfold parse_value. by rewrite Hc. Qed.

Lemma parse_value_repr v rest :
  plain_value v = true → no_word_head rest →
  parse_value (repr_value v +:+ rest) = Got v rest.
Proof.
  intros Hv Hrest. destruct v as [x|l]; simpl repr_value.
  - pose proof (parse_scalar_repr x rest Hv Hrest) as Hp.
    destruct (repr_scalar_head x Hv) as (c & t & Hct & Hc). rewrite Hct in *.
    rewrite append_cons in *.
    destruct (value_start_plain c Hc) as (_ & _ & _ & Hbr).
    by rewrite (parse_value_scalar _ _ Hbr), Hp.
  - norm_app. destruct l as [|x l]; [reflexivity|].
    destruct (join_scalars_head (x :: l) (String "]" rest)) as (c & t & Hct & Hc);
      [done|done|].
    destruct (value_start_plain c Hc) as (Hsp & Hbr & _).
    unfold parse_value. change (Ascii.eqb "[" "[") with true. cbv iota.
    rewrite Hct, (skip_ws_plain _ _ Hsp), Hbr, <- Hct.
    rewrite (parse_items_repr (x :: l) [] _ rest); [reflexivity|done| |done].
    rewrite length_append.
    pose proof (join_comma_length repr_scalar (x :: l) repr_scalar_nonempty). lia.
Qed.

(** ** Dict displays *)

Lemma repr_value_head v rest :
  plain_value v = true →
  ∃ c t, repr_value v +:+ rest = String c t ∧ is_space c = false.
Proof.
  intros Hv. destruct v as [x|l]; simpl repr_value.
  - destruct (repr_scalar_head x Hv) as (c & t & -> & Hc).
    destruct (value_start_plain c Hc) as (Hsp & _). norm_app. eauto.
  - norm_app. eauto.
Qed.

Lemma repr_entry_head e rest :
  ∃ c t, repr_entry e +:+ rest = String c t
         ∧ is_space c = false ∧ Ascii.eqb c "}" = false.
Proof.
  unfold repr_entry. destruct (repr_quote_head (fst e)) as (q & t & -> & Hq).
  norm_app. destruct Hq as [-> | ->]; eauto.
Qed.

Lemma join_entries_head es rest :
  es ≠ [] →
  ∃ c t, join_comma (map repr_entry es) +:+ rest = String c t
         ∧ is_space c = false ∧ Ascii.eqb c "}" = false.
Proof.
  destruct es as [|e es]; [done|]. intros _. destruct es as [|e' es].
  - simpl map. simpl join_comma. apply repr_entry_head.
  - rewrite join_comma_cons, append_assoc. apply repr_entry_head.
Qed.

Lemma parse_entries_step fuel s acc k s1 s2 v s3 :
  parse_str s = Got k s1 →
  skip_ws s1 = String ":" s2 →
  parse_value (skip_ws s2) = Got v s3 →
  parse_entries (S fuel) s acc =
  match skip_ws s3 with
  | String c' s4 =>
      if Ascii.eqb c' "}" then Got (dict_set acc k v) s4
      else if Ascii.eqb c' "," then
        match skip_ws s4 with
        | String c'' s5 =>
            if Ascii.eqb c'' "}" then Got (dict_set acc k v) s5
            else parse_entries fuel (skip_ws s4) (dict_set acc k v)
        | EmptyString => Refused Truncated
        end
      else Unread
  | EmptyString => Refused Truncated
  end.
Proof. intros Hk Hc Hv. simpl. by rewrite Hk, Hc, Hv. Qed.

Lemma parse_entry_repr fuel k v rest acc :
  plain_value v = true → no_word_head rest →
  parse_entries (S fuel) (repr_entry (k, v) +:+ rest) acc =
  match skip_ws rest with
  | String c' s4 =>
      if Ascii.eqb c' "}" then Got (dict_set acc k v) s4
      else if Ascii.eqb c' "," then
        match skip_ws s4 with
        | String c'' s5 =>
            if Ascii.eqb c'' "}" then Got (dict_set acc k v) s5
            else parse_entries fuel (skip_ws s4) (dict_set acc k v)
        | EmptyString => Refused Truncated
        end
      else Unread
  | EmptyString => Refused Truncated
  end.
Proof.
  intros Hv Hrest. unfold repr_entry. simpl fst. simpl snd. norm_app.
  apply (parse_entries_step _ _ _ k
           (String ":" (String " " (repr_value v +:+ rest)))
           (String " " (repr_value v +:+ rest)) v rest).
  - apply parse_str_repr.
  - reflexivity.
  - change (skip_ws (String " " ?s)) with (skip_ws s).
    destruct (repr_value_head v rest Hv) as (c & t & Hct & Hsp).
    rewrite Hct, (skip_ws_plain _ _ Hsp), <- Hct. by apply parse_value_repr.
Qed.

Lemma parse_entries_repr es : ∀ acc fuel rest,
  es ≠ [] → (length es <= fuel)%nat →
  forallb plain_entry es = true →
  parse_entries fuel (join_comma (map repr_entry es) +:+ String "}" rest) acc
  = Got (fold_left set_entry es acc) rest.
Proof.
  induction es as [|[k v] es IH]; [done|].
  intros acc fuel rest _ Hfuel [Hv Hes]%andb_prop.
  unfold plain_entry in Hv. simpl in Hv.
  destruct fuel as [|fuel]; [simpl in Hfuel; lia|].
  destruct es as [|e es].
  - simpl map. simpl join_comma. by rewrite parse_entry_repr.
  - rewrite join_comma_cons, append_assoc, parse_entry_repr by done.
    norm_app.
    change (skip_ws (String "," ?s)) with (String "," s).
    cbv iota beta. change (Ascii.eqb "," "}") with false.
    change (Ascii.eqb "," ",") with true. cbv iota.
    change (skip_ws (String " " ?s)) with (skip_ws s).
    destruct (join_entries_head (e :: es) (String "}" rest)) as (c & t & Hct & Hsp & Hbr);
      [done|].
    rewrite Hct, (skip_ws_plain _ _ Hsp), Hbr, <- Hct.
    rewrite (IH (dict_set acc k v) fuel rest); [reflexivity|done|simpl in *; lia|done].
Qed.

Lemma dict_set_fresh {V} (d : list (string * V)) k v :
  k ∉ keys d → dict_set d k v = d ++ [(k, v)].
Proof.
  induction d as [|[k' v'] d IH]; simpl; [done|].
  intros Hk. apply not_elem_of_cons in Hk as [Hne Hk].
  destruct (String.eqb_spec k k'); [done|]. by rewrite IH.
Qed.

Lemma fold_set_entry es : ∀ acc,
  NoDup (keys (acc ++ es)) → fold_left set_entry es acc = acc ++ es.
Proof.
  induction es as [|[k v] es IH]; intros acc Hnd; simpl.
  - by rewrite app_nil_r.
  - unfold set_entry at 2. simpl.
    assert (Hk : k ∉ keys acc).
    { unfold keys in *. rewrite map_app in Hnd. simpl in Hnd.
      apply NoDup_app in Hnd as (_ & Hdisj & _). intros Hin.
      apply (Hdisj k Hin). left. }
    rewrite (dict_set_fresh _ _ _ Hk), IH; [by rewrite <- app_assoc|].
    by rewrite <- app_assoc.
Qed.

Lemma repr_entry_nonempty e : repr_entry e ≠ EmptyString.
Proof. destruct (repr_entry_head e EmptyString) as (c & t & Hct & _).
  intros He. rewrite He in Hct. discriminate. Qed.

Lemma literal_eval_filter_repr d :
  NoDup (keys d) →
  forallb plain_entry d = true →
  literal_eval_filter (repr_filter d) = Evaluates d.
Proof.
  intros Hnd Hd. unfold repr_filter, literal_eval_filter. norm_app.
  destruct d as [|e es]; [reflexivity|].
  destruct (join_entries_head (e :: es) "}") as (c & t & Hct & Hsp & Hbr); [done|].
  unfold parse_filter. change (Ascii.eqb "{" "{") with true. cbv iota.
  rewrite Hct, (skip_ws_plain _ _ Hsp), Hbr, <- Hct.
  rewrite (parse_entries_repr (e :: es) [] _ EmptyString); [|done| |done].
  - rewrite (fold_set_entry (e :: es) []); [reflexivity|exact Hnd].
  - rewrite length_append.
    pose proof (join_comma_length repr_entry (e :: es) repr_entry_nonempty). lia.
Qed.




(** X14: list-valued match targets make the round trip too.  A filter
    with distinct keys whose values are strings, integers, truth values,
    [None] or lists of those, such as the three-item [attributes.STASH]
    target of the notebook's introduction, is given back entry for entry,
    lists in their order, by reading the text [repr] prints for it. *)
Theorem literal_eval_round_trip_lists (d : filter_dict) :
  NoDup (keys d) →
  forallb plain_entry d = true →
  literal_eval_filter (repr_filter d) = Evaluates d
  ∧ demo_literal_eval (repr_filter d) = Returned d.
Proof.
  intros Hnd Hd. pose proof (literal_eval_filter_repr d Hnd Hd) as Hr.
  unfold demo_literal_eval. by rewrite Hr.
Qed.

(** * Properties of the callbacks *)

Section GuiFacts.
Context {env : Collaborators}.

(** ** Output regions *)

Lemma ops_of_snoc r l e :
  ops_of r (l ++ [e]) =
  ops_of r l ++ match e with
                | Out r' op => if decide (r' = r) then [op] else []
                | _ => []
                end.
Proof.
  unfold ops_of. rewrite omap_app. f_equal.
  destruct e; simpl; try reflexivity.
  destruct (decide (r0 = r)); reflexivity.
Qed.

Lemma view_record r e st :
  view r (record e st) =
  match e with
  | Out r' op => if decide (r' = r) then out_step (view r st) op else view r st
  | _ => view r st
  end.
Proof.
  unfold view. simpl. rewrite ops_of_snoc.
  destruct e; simpl; rewrite ?app_nil_r; try reflexivity.
  destruct (decide (r0 = r)); simpl; rewrite ?app_nil_r; try reflexivity.
  rewrite fold_left_app. reflexivity.
Qed.

Lemma loads_record e st :
  loads (record e st) =
  loads st ++ match e with Load files => [files] | _ => [] end.
Proof.
  unfold loads. simpl. rewrite omap_app. f_equal. destruct e; reflexivity.
Qed.

(** ** Deduplication *)

Lemma dedup_NoDup raw : NoDup (dedup raw).
Proof. unfold dedup. apply NoDup_elements. Qed.

Lemma dedup_elem_of raw x : x ∈ dedup raw ↔ x ∈ raw.
Proof. unfold dedup. rewrite elem_of_elements. apply elem_of_list_to_set. Qed.

Lemma dedup_nil : dedup [] = [].
Proof. unfold dedup. simpl. apply elements_empty. Qed.

Lemma dedup_nonempty raw : raw ≠ [] → len_true (dedup raw) = true.
Proof.
  intros Hraw. destruct raw as [|x raw]; [done|].
  assert (Hx : x ∈ dedup (x :: raw)) by (apply dedup_elem_of; left).
  destruct (dedup (x :: raw)); [by apply elem_of_nil in Hx | reflexivity].
Qed.

Lemma dedup_same_members raw raw' :
  (∀ x, x ∈ raw' ↔ x ∈ raw) → dedup raw' ≡ₚ dedup raw.
Proof.
  intros Hmem. apply NoDup_Permutation; try apply dedup_NoDup.
  intros x. rewrite !dedup_elem_of. apply Hmem.
Qed.

(** ** [handle_query] step by step *)

Lemma handle_query_eq st c db_name coll_name query_dict raw :
  client st = Some c →
  client_query c db_name coll_name query_dict = Returned raw →
  handle_query db_name coll_name query_dict st =
  let st1 := listed db_name coll_name query_dict raw st in
  if len_true (dedup raw) then
    match iris_load (dedup raw) with
    | Returned cl => (Returned tt, rendered cl (loading (dedup raw) st1))
    | Raised e => (Raised e, loading (dedup raw) st1)
    end
  else (Returned tt, st1).
Proof.
  intros Hc Hq.
  unfold handle_query, bind, get_client, call_query, call_load, bind, modify, lift,
    clear_output, print, display, modify, ret, listed, loading, rendered.
  rewrite Hc. simpl. rewrite Hq.
  destruct (len_true (dedup raw)); simpl; [|reflexivity].
  destruct (iris_load (dedup raw)); reflexivity.
Qed.

Lemma handle_query_unbound st db_name coll_name query_dict :
  client st = None →
  handle_query db_name coll_name query_dict st = (Raised (NameError "client"), st).
Proof.
  intros Hc. unfold handle_query, bind, get_client. rewrite Hc. reflexivity.
Qed.

Lemma handle_query_query_raises st c db_name coll_name query_dict e :
  client st = Some c →
  client_query c db_name coll_name query_dict = Raised e →
  handle_query db_name coll_name query_dict st =
  (Raised e, record (Query db_name coll_name query_dict) st).
Proof.
  intros Hc Hq.
  unfold handle_query, bind, get_client, call_query, bind, modify, lift.
  rewrite Hc. simpl. rewrite Hq. reflexivity.
Qed.

Lemma shown_listed db_name coll_name query_dict raw st :
  shown list_out (listed db_name coll_name query_dict raw st) =
  if len_true (dedup raw)
  then [Text "Matching files:"; Files (dedup raw); Text (nl +:+ "Iris Cubes:")]
  else [Text "No results."].
Proof.
  unfold shown, listed.
  destruct (len_true (dedup raw)); repeat (rewrite view_record; simpl); reflexivity.
Qed.

Lemma view_list_out_loading r files st :
  r ≠ cl_out → view r (loading files st) = view r st.
Proof.
  intros Hr. unfold loading. repeat (rewrite view_record; simpl).
  destruct (decide (cl_out = r)); congruence.
Qed.

Lemma view_list_out_rendered r cl st :
  r ≠ cl_out → view r (rendered cl st) = view r st.
Proof.
  intros Hr. unfold rendered. repeat (rewrite view_record; simpl).
  destruct (decide (cl_out = r)); congruence.
Qed.

(** ** The listing and the datasets *)

(** C1: [handle_query] shows the deduplicated result: whatever raw list the
    query returns, the list it displays holds every identifier of the raw
    list exactly once and nothing else, and depends on the raw list only
    through its members, so neither how often nor where an identifier
    occurred is kept. *)
Theorem handle_query_dedup st c db_name coll_name query_dict raw :
  client st = Some c →
  client_query c db_name coll_name query_dict = Returned raw →
  raw ≠ [] →
  let st' := snd (handle_query db_name coll_name query_dict st) in
  shown list_out st' =
    [Text "Matching files:"; Files (dedup raw); Text (nl +:+ "Iris Cubes:")]
  ∧ NoDup (dedup raw)
  ∧ (∀ x, x ∈ dedup raw ↔ x ∈ raw)
  ∧ (∀ raw', (∀ x, x ∈ raw' ↔ x ∈ raw) → dedup raw' ≡ₚ dedup raw)
  ∧ (raw ≡ₚ ["a.pp"; "a.pp"; "b.pp"] →
     list_to_set (dedup raw) = ({["a.pp"; "b.pp"]} : gset string)).
Proof.
  intros Hc Hq Hraw st'.
  split; [|split; [apply dedup_NoDup|split; [apply dedup_elem_of|split]]].
  - subst st'. rewrite (handle_query_eq _ _ _ _ _ _ Hc Hq). simpl.
    rewrite (dedup_nonempty _ Hraw).
    unfold shown.
    destruct (iris_load (dedup raw)); simpl;
      rewrite ?view_list_out_rendered, view_list_out_loading by discriminate;
      fold (shown list_out (listed db_name coll_name query_dict raw st));
      rewrite shown_listed, (dedup_nonempty _ Hraw); reflexivity.
  - apply dedup_same_members.
  - intros Hperm. unfold dedup. rewrite list_to_set_elements_L.
    apply set_eq. intros x. rewrite elem_of_list_to_set, Hperm.
    rewrite elem_of_union, !elem_of_singleton, !elem_of_cons, elem_of_nil. tauto.
Qed.

(** C2: when the query finds nothing, the listing region reads "No
    results.", the loader is not called and the dataset region is left as
    it was. *)
Theorem handle_query_no_results st c db_name coll_name query_dict :
  client st = Some c →
  client_query c db_name coll_name query_dict = Returned [] →
  ∃ st', handle_query db_name coll_name query_dict st = (Returned tt, st')
    ∧ shown list_out st' = [Text "No results."]
    ∧ loads st' = loads st
    ∧ view cl_out st' = view cl_out st
    ∧ log st' = log st ++ [Query db_name coll_name query_dict;
                           Out list_out (Clear false);
                           Out list_out (Emit (Text "No results."))].
Proof.
  intros Hc Hq. eexists. rewrite (handle_query_eq _ _ _ _ _ _ Hc Hq).
  rewrite dedup_nil. simpl. split; [reflexivity|].
  split; [|split; [|split]].
  - pose proof (shown_listed db_name coll_name query_dict [] st) as Hs.
    rewrite dedup_nil in Hs. exact Hs.
  - unfold listed. rewrite dedup_nil. simpl.
    rewrite !loads_record. simpl. by rewrite !app_nil_r.
  - unfold listed. rewrite dedup_nil. simpl.
    by repeat (rewrite view_record; simpl).
  - unfold listed. rewrite dedup_nil. simpl. by rewrite <- !app_assoc.
Qed.

(** C8, as the code has it: for a non-empty result the decoding is one
    call of the loader on the whole deduplicated list, made inside
    [handle_query] itself: the placeholder is written first, then the loader
    runs, and only when it has returned the placeholder is replaced by the
    decoded collection; if the loader raises, so does [handle_query], and
    the placeholder stays. *)
Theorem handle_query_decodes_in_place st c db_name coll_name query_dict raw :
  client st = Some c →
  client_query c db_name coll_name query_dict = Returned raw →
  raw ≠ [] →
  let files := dedup raw in
  let shown_first := listed db_name coll_name query_dict raw st in
  match iris_load files with
  | Returned cl =>
      ∃ st', handle_query db_name coll_name query_dict st = (Returned tt, st')
        ∧ log st' = log shown_first ++
                    [Out cl_out (Clear false); Out cl_out (Emit (Text "..."));
                     Load files;
                     Out cl_out (Clear true); Out cl_out (Emit (Cubes cl))]
        ∧ shown cl_out st' = [Cubes cl]
        ∧ loads st' = loads st ++ [files]
  | Raised e =>
      ∃ st', handle_query db_name coll_name query_dict st = (Raised e, st')
        ∧ log st' = log shown_first ++
                    [Out cl_out (Clear false); Out cl_out (Emit (Text "..."));
                     Load files]
        ∧ shown cl_out st' = [Text "..."]
        ∧ loads st' = loads st ++ [files]
  end.
Proof.
  intros Hc Hq Hraw files shown_first.
  rewrite (handle_query_eq _ _ _ _ _ _ Hc Hq). simpl.
  rewrite (dedup_nonempty _ Hraw). fold files. fold shown_first.
  assert (Hl : loads shown_first = loads st).
  { unfold shown_first, listed. destruct (len_true (dedup raw));
      rewrite !loads_record; simpl; by rewrite !app_nil_r. }
  destruct (iris_load files) as [cl|e]; eexists; (split; [reflexivity|]).
  - split; [|split].
    + unfold rendered, loading. simpl. by rewrite <- !app_assoc.
    + unfold shown, rendered, loading. by repeat (rewrite view_record; simpl).
    + unfold rendered, loading. rewrite !loads_record, Hl. simpl.
      by rewrite !app_nil_r.
  - split; [|split].
    + unfold loading. simpl. by rewrite <- !app_assoc.
    + unfold shown, loading. by repeat (rewrite view_record; simpl).
    + unfold loading. rewrite !loads_record, Hl. simpl. by rewrite !app_nil_r.
Qed.

(** ** [authenticate] *)

Lemma dict_get_head {V} (d : list (string * V)) k :
  head (keys d) = Some k → ∃ v, dict_get d k = Some v.
Proof.
  destruct d as [|[k' v] d]; simpl; [discriminate|].
  intros [= ->]. rewrite String.eqb_refl. eauto.
Qed.

Lemma dict_get_keys {V} (d : list (string * V)) k :
  k ∈ keys d ↔ is_Some (dict_get d k).
Proof.
  induction d as [|[k' v] d IH]; simpl.
  - split; [intros Hk; by apply elem_of_nil in Hk | intros [? [=]]].
  - rewrite elem_of_cons. destruct (String.eqb_spec k k') as [->|Hne].
    + split; eauto.
    + rewrite IH. split; [intros [?|?]; [done|done] | by right].
Qed.

(** Unfolds a callback down to the collaborators' answers. *)
Ltac callback :=
  unfold authenticate, try_except_else, authenticate_try, on_button_click,
    db_set_options, db_set_value, on_select_change, coll_set_options,
    call_Client, get_client, subscript, print, display, clear_output,
    bind, gets, modify, lift, ret, raise in *;
  simpl in *.

Lemma keys_nil {V} (d : list (string * V)) : keys d = [] → d = [].
Proof. by destruct d. Qed.

Lemma with_options_options opts d : dd_options (with_options opts d) = opts.
Proof. unfold with_options. by destruct (decide _). Qed.

Lemma with_options_disabled opts d : dd_disabled (with_options opts d) = dd_disabled d.
Proof. unfold with_options. by destruct (decide _). Qed.

Lemma reselect_cases opts d :
  reselect opts d = head opts ∨ (reselect opts d = None ∧ dd_value d = None).
Proof. unfold reselect. destruct (dd_value d), first_if_unselected; auto. Qed.

(** The outcome of the [try] block, case by case. *)
Lemma authenticate_try_cases st :
  let conn_str := conn_str_of (tx_value (pw st)) in
  let st0 := record (Connect conn_str) st in
  match Client_new conn_str with
  | Raised e => authenticate_try st = (Raised e, st0)
  | Returned c =>
      let names := keys (collection_names c) in
      let selected := {| dd_options := names; dd_value := reselect names (db st);
                         dd_disabled := dd_disabled (db st) |} in
      let enable st1 :=
        set_search {| bt_disabled := false |}
          (set_query (with_disabled false (query st1)) st1) in
      if decide (names = dd_options (db st))
      then authenticate_try st = (Returned tt, enable (set_client c st0))
      else if decide (dd_value (db st) = reselect names (db st))
      then authenticate_try st = (Returned tt, enable (set_db selected (set_client c st0)))
      else match reselect names (db st) with
           | None => authenticate_try st =
                       (Raised (KeyError None), set_db selected (set_client c st0))
           | Some k =>
               ∃ colls, dict_get (collection_names c) k = Some colls
                 ∧ authenticate_try st =
                     (Returned tt,
                      enable (set_coll (with_options colls (coll st))
                                (set_db selected (set_client c st0))))
           end
  end.
Proof.
  callback. destruct (Client_new _) as [c|e]; [|reflexivity].
  simpl. destruct (decide (keys (collection_names c) = _)) as [Hsame|Hnew];
    [reflexivity|].
  simpl. destruct (decide (dd_value (db st) = _)) as [Heq|Hne]; [reflexivity|].
  destruct (reselect _ _) as [k|] eqn:Hsel; [|reflexivity].
  destruct (reselect_cases (keys (collection_names c)) (db st)) as [Hhead|[Hnone _]];
    [|congruence].
  rewrite Hsel in Hhead. symmetry in Hhead.
  destruct (dict_get_head _ _ Hhead) as [colls Hcolls].
  exists colls. split; [exact Hcolls|]. simpl. by rewrite Hcolls.
Qed.

Lemma last_shown_emit r i st :
  last (shown r (record (Out r (Emit i)) st)) = Some i.
Proof.
  unfold shown. rewrite view_record. destruct (decide (r = r)); [|done].
  simpl. destruct (snd (view r st)); [reflexivity|apply last_snoc].
Qed.

Lemma authenticate_eq st :
  authenticate st =
  match authenticate_try st with
  | (Returned _, st1) =>
      (Returned tt, record (Out login_output (Emit (Text login_ok))) st1)
  | (Raised e, st1) =>
      (Returned tt, record (Out login_output (Emit (Text (login_failed e)))) st1)
  end.
Proof.
  unfold authenticate, try_except_else, print, modify.
  destruct (authenticate_try st) as [[[]|e] st1]; reflexivity.
Qed.

(** What the [try] block leaves behind when it raises: the widgets' flags
    are untouched. *)
Lemma authenticate_try_raises st e st1 :
  authenticate_try st = (Raised e, st1) →
  disabled_flags st1 = disabled_flags st
  ∧ query st1 = query st ∧ search st1 = search st
  ∧ (client st1 = client st ∨ ∃ c, client st1 = Some c ∧ collection_names c = [])
  ∧ extends st st1.
Proof.
  intros Htry. pose proof (authenticate_try_cases st) as Hcases. simpl in Hcases.
  destruct (Client_new _) as [c|e'].
  - destruct (decide _); [congruence|]. destruct (decide _) as [|Hne]; [congruence|].
    destruct (reselect_cases (keys (collection_names c)) (db st)) as [Hhead|[Hnone Hval]].
    + destruct (reselect _ _) as [k|] eqn:Hsel.
      { destruct Hcases as (colls & _ & Hcases). congruence. }
      rewrite Hcases in Htry. injection Htry as <- <-.
      assert (collection_names c = []).
      { apply keys_nil. by destruct (keys (collection_names c)). }
      repeat split; [right; eauto|by eexists].
    + rewrite Hnone in Hne. congruence.
  - rewrite Hcases in Htry. injection Htry as <- <-.
    repeat split; [by left|by eexists].
Qed.

(** What it leaves behind when it completes. *)
Lemma authenticate_try_returns st st1 :
  authenticate_try st = (Returned tt, st1) →
  ∃ c, Client_new (conn_str_of (tx_value (pw st))) = Returned c
    ∧ client st1 = Some c
    ∧ dd_options (db st1) = keys (collection_names c)
    ∧ (dd_value (db st1) = dd_value (db st)
       ∨ dd_value (db st1) = head (keys (collection_names c)))
    ∧ tx_disabled (query st1) = false
    ∧ bt_disabled (search st1) = false
    ∧ dd_disabled (db st1) = dd_disabled (db st)
    ∧ dd_disabled (coll st1) = dd_disabled (coll st)
    ∧ pw st1 = pw st ∧ login st1 = login st
    ∧ extends st st1.
Proof.
  intros Htry. pose proof (authenticate_try_cases st) as Hcases. simpl in Hcases.
  destruct (Client_new _) as [c|e']; [|congruence].
  exists c. split; [reflexivity|].
  destruct (decide _) as [Hsame|Hnew].
  - rewrite Hcases in Htry. injection Htry as <-. simpl.
    repeat split; auto; by eexists.
  - destruct (decide _) as [Heq|Hne].
    + rewrite Hcases in Htry. injection Htry as <-. simpl.
      repeat split; auto; by eexists.
    + destruct (reselect_cases (keys (collection_names c)) (db st)) as [Hhead|[Hnone Hval]];
        [|rewrite Hnone in Hne; congruence].
      destruct (reselect _ _) as [k|] eqn:Hsel; [|congruence].
      destruct Hcases as (colls & _ & Hcases).
      rewrite Hcases in Htry. injection Htry as <-. simpl.
      rewrite with_options_disabled.
      repeat split; auto; by eexists.
Qed.

(** A client that knows at least one store always completes the [try]. *)
Lemma authenticate_try_completes st c :
  Client_new (conn_str_of (tx_value (pw st))) = Returned c →
  collection_names c ≠ [] →
  ∃ st1, authenticate_try st = (Returned tt, st1).
Proof.
  intros Hnew Hnames. pose proof (authenticate_try_cases st) as Hcases.
  simpl in Hcases. rewrite Hnew in Hcases.
  destruct (decide _); [eauto|]. destruct (decide _) as [|Hne]; [eauto|].
  destruct (reselect_cases (keys (collection_names c)) (db st)) as [Hhead|[Hnone Hval]];
    [|rewrite Hnone in Hne; congruence].
  destruct (reselect _ _) as [k|] eqn:Hsel.
  - destruct Hcases as (colls & _ & Hcases). eauto.
  - exfalso. apply Hnames, keys_nil. by destruct (keys (collection_names c)).
Qed.

(** C6: the success half fails at a service without stores.  When the
    constructor returns a client that knows no store while the store selector
    offers and holds something, as the freshly created widgets do, emptying
    the selector's options leaves it without a value; the observer
    [on_select_change] is called with [None] and raises [KeyError] inside the
    [try].  So [authenticate] binds the client and empties the store
    selector, and then reports a failed login: the failure line is printed
    with the text [None], and the query field and the search button stay as
    they were. *)
Theorem authenticate_without_stores st c v :
  Client_new (conn_str_of (tx_value (pw st))) = Returned c →
  collection_names c = [] →
  dd_options (db st) ≠ [] →
  dd_value (db st) = Some v →
  let st' := snd (authenticate st) in
  fst (authenticate st) = Returned tt
  ∧ fst (authenticate_try st) = Raised (KeyError None)
  ∧ client st' = Some c
  ∧ dd_options (db st') = [] ∧ dd_value (db st') = None
  ∧ query st' = query st ∧ search st' = search st
  ∧ last (shown login_output st') = Some (Text (login_failed (KeyError None)))
  ∧ login_failed (KeyError None)
    = "Login unsuccessful. Original error was:" +:+ nl +:+ "None".
Proof.
  intros Hnew Hnames Hopts Hv st'. subst st'. rewrite authenticate_eq.
  pose proof (authenticate_try_cases st) as Hcases. simpl in Hcases.
  rewrite Hnew, Hnames in Hcases. simpl in Hcases.
  destruct (decide _) as [Heq|_]; [congruence|].
  unfold reselect in Hcases. rewrite Hv in Hcases. simpl in Hcases.
  rewrite Hcases. simpl.
  repeat split. apply last_shown_emit.
Qed.

(** X16: [authenticate] never raises, whatever the password.  An error of
    the client's constructor, or any other raised in the [try], is caught and
    printed, with its text, to the login region; and when the constructor
    returns a client that knows at least one store, the [try] completes: the
    query field and the search button are enabled, the global client is
    bound, the store selector offers the client's stores and the success
    line is printed. *)
Theorem authenticate_reports st :
  (∃ st', authenticate st = (Returned tt, st'))
  ∧ (∀ e, Client_new (conn_str_of (tx_value (pw st))) = Raised e →
       authenticate st =
         (Returned tt,
          record (Out login_output (Emit (Text (login_failed e))))
            (record (Connect (conn_str_of (tx_value (pw st)))) st)))
  ∧ (∀ e st1, authenticate_try st = (Raised e, st1) →
       let st' := snd (authenticate st) in
       log st' = log st1 ++ [Out login_output (Emit (Text (login_failed e)))]
       ∧ last (shown login_output st') = Some (Text (login_failed e)))
  ∧ (∀ c, Client_new (conn_str_of (tx_value (pw st))) = Returned c →
       collection_names c ≠ [] →
       let st' := snd (authenticate st) in
       (∃ st1, authenticate_try st = (Returned tt, st1))
       ∧ tx_disabled (query st') = false
       ∧ bt_disabled (search st') = false
       ∧ last (shown login_output st') = Some (Text login_ok)
       ∧ client st' = Some c
       ∧ dd_options (db st') = keys (collection_names c)).
Proof.
  rewrite authenticate_eq. split; [|split; [|split]].
  - destruct (authenticate_try st) as [[[]|e] st1]; eauto.
  - intros e Hnew. pose proof (authenticate_try_cases st) as Hcases.
    simpl in Hcases. rewrite Hnew in Hcases. rewrite Hcases. reflexivity.
  - intros e st1 ->. simpl. split; [reflexivity|apply last_shown_emit].
  - intros c Hnew Hnames.
    destruct (authenticate_try_completes _ _ Hnew Hnames) as [st1 Htry].
    rewrite Htry. simpl.
    destruct (authenticate_try_returns _ _ Htry)
      as (c' & Hnew' & Hc & Hopts & _ & Hq & Hs & _).
    assert (c' = c) by congruence. subst c'.
    repeat split; try assumption; [eauto|apply last_shown_emit].
Qed.

(** ** What a callback can touch *)

Lemma extends_refl st : extends st st.
Proof. exists []. by rewrite app_nil_r. Qed.

Lemma extends_trans st1 st2 st3 : extends st1 st2 → extends st2 st3 → extends st1 st3.
Proof. intros [l1 H1] [l2 H2]. exists (l1 ++ l2). by rewrite H2, H1, app_assoc. Qed.

Lemma extends_record e st : extends st (record e st).
Proof. by exists [e]. Qed.

Lemma logged_in_extends st st' : extends st st' → logged_in st → logged_in st'.
Proof. intros [l Hl] Hin. unfold logged_in in *. rewrite Hl. apply elem_of_app. by left. Qed.

Create HintDb gui.
Local Hint Resolve extends_refl extends_record : gui.

Ltac framed :=
  repeat split; simpl; auto with gui; try congruence;
  try (exists []; simpl; symmetry; apply app_nil_r).

Lemma handle_query_frame db_name coll_name query_dict st :
  let st' := snd (handle_query db_name coll_name query_dict st) in
  widgets st' = widgets st ∧ client st' = client st ∧ extends st st'.
Proof.
  destruct (client st) as [c|] eqn:Hc.
  - destruct (client_query c db_name coll_name query_dict) as [raw|e] eqn:Hq.
    + rewrite (handle_query_eq _ _ _ _ _ _ Hc Hq). simpl.
      assert (Hl : ∀ X : GuiState,
        X = listed db_name coll_name query_dict raw st →
        widgets X = widgets st ∧ client X = client st ∧ extends st X).
      { intros X ->. unfold listed.
        destruct (len_true (dedup raw)); simpl;
          (split; [reflexivity|split; [reflexivity|]]);
          eexists; simpl; rewrite <- !app_assoc; reflexivity. }
      destruct (Hl _ eq_refl) as (Hw & Hcl & Hex).
      destruct (len_true (dedup raw)); [|simpl; repeat split; congruence || assumption].
      destruct (iris_load (dedup raw)); simpl;
        (split; [exact Hw|split; [congruence|]]);
        (eapply extends_trans; [exact Hex|]);
        eexists; simpl; rewrite <- !app_assoc; reflexivity.
    + rewrite (handle_query_query_raises _ _ _ _ _ _ Hc Hq). simpl.
      repeat split; auto with gui.
  - rewrite (handle_query_unbound _ _ _ _ Hc). simpl. repeat split; auto with gui.
Qed.

Lemma on_button_click_frame st :
  let st' := snd (on_button_click st) in
  widgets st' = widgets st ∧ client st' = client st ∧ extends st st'.
Proof.
  unfold on_button_click, bind, gets, lift.
  destruct (literal_eval (tx_value (query st))) as [q|e]; simpl.
  - apply handle_query_frame.
  - repeat split; auto with gui.
Qed.

Lemma on_select_change_frame ev st :
  let st' := snd (on_select_change ev st) in
  (pw st', login st', db st', query st', search st') =
    (pw st, login st, db st, query st, search st)
  ∧ dd_disabled (coll st') = dd_disabled (coll st)
  ∧ client st' = client st ∧ log st' = log st.
Proof.
  callback. destruct (client st) as [c|] eqn:Hc; simpl; [|auto].
  destruct (new ev) as [k|]; simpl; [|auto].
  destruct (dict_get (collection_names c) k); simpl; auto.
  rewrite with_options_disabled. auto.
Qed.

Lemma db_set_value_frame v st :
  let st' := snd (db_set_value v st) in
  (pw st', login st', query st', search st') = (pw st, login st, query st, search st)
  ∧ dd_disabled (db st') = dd_disabled (db st)
  ∧ dd_disabled (coll st') = dd_disabled (coll st)
  ∧ client st' = client st ∧ log st' = log st.
Proof.
  unfold db_set_value, bind, gets, modify. simpl.
  destruct (decide _); [done|].
  match goal with |- context [on_select_change ?ev ?s] =>
    pose proof (on_select_change_frame ev s) as Hf end.
  simpl in Hf. destruct Hf as (Hw & Hd & Hc & Hl).
  injection Hw as Hpw Hlogin Hdb Hq Hs.
  rewrite Hpw, Hlogin, Hdb, Hq, Hs, Hd, Hc, Hl. done.
Qed.

(** Every event but a click on the login button leaves the global client
    and all [disabled] traits as they were. *)
Lemma step_frame st ev :
  ev ≠ ClickLogin →
  disabled_flags (step st ev) = disabled_flags st
  ∧ client (step st ev) = client st
  ∧ extends st (step st ev).
Proof.
  intros Hev. unfold step, dispatch. destruct ev; try done.
  - destruct (tx_disabled (pw st)) eqn:Hd; simpl; [framed|].
    unfold disabled_flags. simpl. rewrite Hd. framed.
  - destruct (dd_disabled (db st)); simpl; [framed|].
    destruct (decide _); simpl; [|framed].
    destruct (db_set_value_frame (Some v) st) as (Hw & Hd & Hc' & Hcl & Hl).
    simpl in *. injection Hw as Hpw Hlogin Hq Hs.
    unfold disabled_flags. rewrite Hpw, Hlogin, Hq, Hs, Hd, Hc', Hcl.
    repeat split. exists []. by rewrite app_nil_r.
  - destruct (dd_disabled (coll st)) eqn:Hd; simpl; [framed|].
    destruct (decide _); simpl; [|framed].
    unfold disabled_flags. simpl. rewrite Hd. framed.
  - destruct (tx_disabled (query st)) eqn:Hd; simpl; [framed|].
    unfold disabled_flags. simpl. rewrite Hd. framed.
  - destruct (bt_disabled (search st)); simpl; [framed|].
    destruct (on_button_click_frame st) as (Hw & Hc & Hex). simpl in *.
    unfold widgets in Hw. injection Hw as Hpw Hlogin Hdb Hcoll Hq Hs.
    unfold disabled_flags. rewrite Hpw, Hlogin, Hdb, Hcoll, Hq, Hs. framed.
Qed.

(** ** The states the widgets can reach *)

Lemma run_snoc evs ev : run (evs ++ [ev]) = step (run evs) ev.
Proof. unfold run. by rewrite fold_left_app. Qed.

Lemma consistent_init : consistent init.
Proof.
  unfold consistent, logged_in. simpl.
  repeat split; try done; intros [?|?]; done.
Qed.

Lemma login_step st :
  bt_disabled (login st) = false → step st ClickLogin = snd (authenticate st).
Proof. intros Hl. unfold step, dispatch. by rewrite Hl. Qed.

Lemma consistent_step st ev : consistent st → consistent (step st ev).
Proof.
  intros (Hdb & Hcoll & Hpw & Hlogin & Hq & Hcl).
  destruct (decide (ev = ClickLogin)) as [->|Hev].
  - rewrite (login_step _ Hlogin), authenticate_eq.
    destruct (authenticate_try st) as [[[]|e] st1] eqn:Htry; simpl.
    + destruct (authenticate_try_returns _ _ Htry)
        as (c & _ & _ & _ & _ & _ & _ & Hdb1 & Hcoll1 & Hpw1 & Hlogin1 & _).
      assert (Hin : logged_in (record (Out login_output (Emit (Text login_ok))) st1)).
      { unfold logged_in. simpl. apply elem_of_app. right. by left. }
      unfold consistent. simpl. rewrite Hdb1, Hcoll1, Hpw1, Hlogin1. auto 10.
    + destruct (authenticate_try_raises _ _ _ Htry) as (Hflags & Hq1 & Hs1 & Hc1 & Hex).
      injection Hflags as Hpw1 Hlogin1 Hdb1 Hcoll1 _ _.
      assert (Hmono : logged_in st →
                logged_in (record (Out login_output (Emit (Text (login_failed e)))) st1)).
      { intros Hin. eapply logged_in_extends; [|exact Hin].
        eapply extends_trans; [exact Hex|apply extends_record]. }
      unfold consistent. simpl. rewrite Hdb1, Hcoll1, Hpw1, Hlogin1, Hq1, Hs1.
      repeat split; try assumption; [auto|].
      intros c Hc Hnames. destruct Hc1 as [Hsame|(c' & Hc' & Hnil)].
      * apply Hmono, (Hcl c); congruence.
      * congruence.
  - destruct (step_frame st ev Hev) as (Hflags & Hc & Hex).
    injection Hflags as Hpw1 Hlogin1 Hdb1 Hcoll1 Hq1 Hs1.
    unfold consistent. rewrite Hdb1, Hcoll1, Hpw1, Hlogin1, Hq1, Hs1, Hc.
    repeat split; try assumption.
    + intros Hen. eapply logged_in_extends; eauto.
    + intros c Hc' Hnames. eapply logged_in_extends; eauto.
Qed.

Lemma consistent_run evs : consistent (run evs).
Proof.
  induction evs as [|ev evs IH] using rev_ind.
  - apply consistent_init.
  - rewrite run_snoc. by apply consistent_step.
Qed.

(** ** The enabled and disabled widgets *)

(** C3, as the code has it: a failed authentication changes no [disabled]
    trait.  The store and sub-collection selectors are enabled, as they
    always are; the query field and the search button are as they were,
    hence disabled when no login has succeeded before. *)
Theorem failed_authenticate_keeps_flags evs e st1 :
  let st := run evs in
  authenticate_try st = (Raised e, st1) →
  let st' := snd (authenticate st) in
  disabled_flags st' = disabled_flags st
  ∧ dd_disabled (db st') = false
  ∧ dd_disabled (coll st') = false
  ∧ (¬ logged_in st →
     tx_disabled (query st') = true ∧ bt_disabled (search st') = true)
  ∧ last (shown login_output st') = Some (Text (login_failed e)).
Proof.
  intros st Htry st'. subst st'. rewrite authenticate_eq, Htry. simpl.
  destruct (authenticate_try_raises _ _ _ Htry) as (Hflags & Hq1 & Hs1 & _ & _).
  destruct (consistent_run evs) as (Hdb & Hcoll & _ & _ & Hq & _). fold st in Hdb, Hcoll, Hq.
  pose proof Hflags as Hflags'. injection Hflags' as _ _ Hdb1 Hcoll1 _ _.
  split; [exact Hflags|]. split; [congruence|]. split; [congruence|].
  split; [|apply last_shown_emit].
  intros Hnot. rewrite Hq1, Hs1.
  destruct (tx_disabled (query st)) eqn:Hqd, (bt_disabled (search st)) eqn:Hsd;
    auto; exfalso; apply Hnot, Hq; auto.
Qed.

(** C9: the store selector and the sub-collection selector are created
    enabled and nothing disables them, neither a callback nor an event; the
    query field and the search button start disabled, the password field and
    the login button do not; and the one event that changes the [disabled]
    trait of the query field or of the search button is a click on the login
    button whose [try] completes, which enables both. *)
Theorem selectors_stay_enabled :
  disabled_flags init = [false; false; false; false; true; true]
  ∧ (∀ st, dd_disabled (db (snd (authenticate st))) = dd_disabled (db st)
         ∧ dd_disabled (coll (snd (authenticate st))) = dd_disabled (coll st))
  ∧ (∀ st ev, dd_disabled (db (snd (on_select_change ev st))) = dd_disabled (db st)
            ∧ dd_disabled (coll (snd (on_select_change ev st))) = dd_disabled (coll st))
  ∧ (∀ st, dd_disabled (db (snd (on_button_click st))) = dd_disabled (db st)
         ∧ dd_disabled (coll (snd (on_button_click st))) = dd_disabled (coll st))
  ∧ (∀ st ev, dd_disabled (db (step st ev)) = dd_disabled (db st)
            ∧ dd_disabled (coll (step st ev)) = dd_disabled (coll st))
  ∧ (∀ evs, dd_disabled (db (run evs)) = false ∧ dd_disabled (coll (run evs)) = false)
  ∧ (∀ st ev,
       tx_disabled (query (step st ev)) ≠ tx_disabled (query st)
       ∨ bt_disabled (search (step st ev)) ≠ bt_disabled (search st) →
       ev = ClickLogin
       ∧ (∃ st1, authenticate_try st = (Returned tt, st1))
       ∧ tx_disabled (query (step st ev)) = false
       ∧ bt_disabled (search (step st ev)) = false).
Proof.
  assert (Hauth : ∀ st,
    dd_disabled (db (snd (authenticate st))) = dd_disabled (db st)
    ∧ dd_disabled (coll (snd (authenticate st))) = dd_disabled (coll st)).
  { intros st. rewrite authenticate_eq.
    destruct (authenticate_try st) as [[[]|e] st1] eqn:Htry; simpl.
    - destruct (authenticate_try_returns _ _ Htry)
        as (c & _ & _ & _ & _ & _ & _ & Hdb1 & Hcoll1 & _). auto.
    - destruct (authenticate_try_raises _ _ _ Htry) as (Hflags & _).
      injection Hflags as _ _ Hdb1 Hcoll1 _ _. auto. }
  split; [reflexivity|]. split; [exact Hauth|].
  split; [|split; [|split; [|split]]].
  - intros st ev. destruct (on_select_change_frame ev st) as (Hw & Hd & _).
    simpl in Hw. injection Hw as _ _ Hdb _ _. rewrite Hdb. auto.
  - intros st. destruct (on_button_click_frame st) as (Hw & _).
    simpl in Hw. unfold widgets in Hw. injection Hw as _ _ Hdb Hcoll _ _.
    rewrite Hdb, Hcoll. auto.
  - intros st ev. destruct (decide (ev = ClickLogin)) as [->|Hev].
    + unfold step, dispatch. destruct (bt_disabled (login st)); [auto|apply Hauth].
    + destruct (step_frame st ev Hev) as (Hflags & _).
      injection Hflags as _ _ Hdb1 Hcoll1 _ _. auto.
  - intros evs. destruct (consistent_run evs) as (Hdb & Hcoll & _). auto.
  - intros st ev Hchange. destruct (decide (ev = ClickLogin)) as [->|Hev].
    + split; [reflexivity|]. revert Hchange. unfold step, dispatch.
      destruct (bt_disabled (login st)); simpl; [intros [?|?]; done|].
      rewrite authenticate_eq.
      destruct (authenticate_try st) as [[[]|e] st1] eqn:Htry; simpl.
      * destruct (authenticate_try_returns _ _ Htry)
          as (c & _ & _ & _ & _ & Hq1 & Hs1 & _). eauto.
      * destruct (authenticate_try_raises _ _ _ Htry) as (_ & Hq1 & Hs1 & _).
        rewrite Hq1, Hs1. intros [?|?]; done.
    + destruct (step_frame st ev Hev) as (Hflags & _).
      injection Hflags as _ _ _ _ Hq1 Hs1. destruct Hchange; done.
Qed.

(** ** The selector chain *)

(** C5: when the value of the store selector changes to a store [S2] of
    the bound client, whatever was selected and offered before, the callback
    replaces the options of the sub-collection selector by the list the
    client's [collection_names] gives for [S2]; so does the user's choice of
    [S2] after [S1]. *)
Theorem on_select_change_replaces_options st c S2 :
  client st = Some c →
  S2 ∈ keys (collection_names c) →
  (∀ before,
     ∃ st', on_select_change {| old := before; new := Some S2 |} st = (Returned tt, st')
       ∧ Some (dd_options (coll st')) = dict_get (collection_names c) S2
       ∧ db st' = db st)
  ∧ (∀ S1,
       dd_value (db st) = Some S1 → S1 ≠ S2 →
       S2 ∈ dd_options (db st) → dd_disabled (db st) = false →
       ∃ st', dispatch (SelectDb S2) st = (Returned tt, st')
         ∧ dd_value (db st') = Some S2
         ∧ Some (dd_options (coll st')) = dict_get (collection_names c) S2).
Proof.
  intros Hc HS2. apply dict_get_keys in HS2 as [colls Hcolls].
  assert (Hcb : ∀ before st0, client st0 = Some c →
    on_select_change {| old := before; new := Some S2 |} st0 =
      (Returned tt, set_coll (with_options colls (coll st0)) st0)).
  { intros before st0 Hc0. callback. rewrite Hc0. simpl. by rewrite Hcolls. }
  split.
  - intros before. eexists. split; [by apply Hcb|]. simpl.
    by rewrite with_options_options, Hcolls.
  - intros S1 HS1 Hne Hopt Hen. unfold dispatch. rewrite Hen.
    destruct (decide (S2 ∈ dd_options (db st))); [|done].
    unfold db_set_value, bind, gets, modify. simpl.
    destruct (decide (dd_value (db st) = Some S2)); [congruence|].
    rewrite Hcb by done. eexists. split; [reflexivity|]. simpl.
    by rewrite with_options_options, Hcolls.
Qed.

(** C10: while the global [client] is unbound, [on_select_change] raises
    [NameError] whatever the change, and a change of the store selector made
    then ends in that exception, which no callback catches.  So a normal
    return of [on_select_change] needs a bound client, and in every state
    the widgets can reach it needs an earlier successful login. *)
Theorem on_select_change_needs_client :
  (∀ st ev, client st = None →
     on_select_change ev st = (Raised (NameError "client"), st))
  ∧ (∀ st v, client st = None →
       dd_disabled (db st) = false → v ∈ dd_options (db st) →
       dd_value (db st) ≠ Some v →
       fst (dispatch (SelectDb v) st) = Raised (NameError "client"))
  ∧ (∀ st ev st', on_select_change ev st = (Returned tt, st') → is_Some (client st))
  ∧ (∀ evs ev st',
       on_select_change ev (run evs) = (Returned tt, st') → logged_in (run evs)).
Proof.
  assert (Hunbound : ∀ st ev, client st = None →
            on_select_change ev st = (Raised (NameError "client"), st)).
  { intros st ev Hc. callback. by rewrite Hc. }
  split; [exact Hunbound|]. split; [|split].
  - intros st v Hc Hen Hopt Hne. unfold dispatch. rewrite Hen.
    destruct (decide (v ∈ dd_options (db st))); [|done].
    unfold db_set_value, bind, gets, modify. simpl.
    destruct (decide (dd_value (db st) = Some v)); [done|].
    by rewrite Hunbound.
  - intros st ev st' Hret. destruct (client st) eqn:Hc; [eauto|].
    rewrite (Hunbound _ _ Hc) in Hret. discriminate.
  - intros evs ev st' Hret.
    destruct (consistent_run evs) as (_ & _ & _ & _ & _ & Hcl).
    revert Hret. callback.
    destruct (client (run evs)) as [c|] eqn:Hc; simpl; [|discriminate].
    destruct (new ev) as [k|]; simpl; [|discriminate].
    destruct (dict_get (collection_names c) k) eqn:Hk; simpl; [|discriminate].
    intros _. apply (Hcl c eq_refl). intros Hnil. rewrite Hnil in Hk. discriminate.
Qed.

(** ** The query submitter *)

(** C7: when [literal_eval] rejects the text of the query field, the
    exception leaves [on_button_click] as it is: nothing is written to any
    region, no query is sent, and the click on the search button ends in
    that exception. *)
Theorem on_button_click_parse_failure st e :
  literal_eval (tx_value (query st)) = Raised e →
  on_button_click st = (Raised e, st)
  ∧ (bt_disabled (search st) = false → dispatch ClickSearch st = (Raised e, st)).
Proof.
  intros Hlit.
  assert (Hclick : on_button_click st = (Raised e, st)).
  { unfold on_button_click, bind, gets, lift. by rewrite Hlit. }
  split; [exact Hclick|]. intros Hen. unfold dispatch. by rewrite Hen.
Qed.

(** ** More on [handle_query] *)

Lemma dedup_submseteq raw : dedup raw ⊆+ raw.
Proof.
  apply NoDup_submseteq; [apply dedup_NoDup|]. intros x. by rewrite dedup_elem_of.
Qed.

(** X1: deduplication never adds an identifier: the displayed list is no
    longer than the raw one, it is a rearrangement of the raw list when that
    has no duplicate, and it has the raw list's length only then. *)
Theorem dedup_length raw :
  length (dedup raw) <= length raw
  ∧ (NoDup raw → dedup raw ≡ₚ raw)
  ∧ (length (dedup raw) = length raw → NoDup raw).
Proof.
  split; [apply submseteq_length, dedup_submseteq|]. split.
  - intros Hnd. apply NoDup_Permutation; [apply dedup_NoDup|exact Hnd|].
    apply dedup_elem_of.
  - intros Hlen. assert (Hperm : dedup raw ≡ₚ raw).
    { apply submseteq_length_Permutation; [apply dedup_submseteq|lia]. }
    rewrite <- Hperm. apply dedup_NoDup.
Qed.

(** X2: when the query itself raises, [handle_query] ends in that
    exception right after the call: nothing is cleared or written, so both
    result regions keep showing the previous search, and the loader is not
    called. *)
Theorem handle_query_query_failure st c db_name coll_name query_dict e :
  client st = Some c →
  client_query c db_name coll_name query_dict = Raised e →
  ∃ st', handle_query db_name coll_name query_dict st = (Raised e, st')
    ∧ log st' = log st ++ [Query db_name coll_name query_dict]
    ∧ view list_out st' = view list_out st
    ∧ view cl_out st' = view cl_out st
    ∧ loads st' = loads st
    ∧ widgets st' = widgets st.
Proof.
  intros Hc Hq. rewrite (handle_query_query_raises _ _ _ _ _ _ Hc Hq).
  eexists. split; [reflexivity|].
  split; [reflexivity|]. rewrite !view_record, loads_record. simpl.
  by rewrite app_nil_r.
Qed.

(** X3: an empty result does not clear the dataset region.  After a search
    that found and loaded files, a search that finds nothing leaves the
    listing region at "No results." while the dataset region still shows
    the cubes of the earlier search. *)
Theorem empty_result_keeps_old_cubes st c d1 k1 q1 raw cl d2 k2 q2 :
  client st = Some c →
  client_query c d1 k1 q1 = Returned raw → raw ≠ [] →
  iris_load (dedup raw) = Returned cl →
  client_query c d2 k2 q2 = Returned [] →
  let st1 := snd (handle_query d1 k1 q1 st) in
  let st2 := snd (handle_query d2 k2 q2 st1) in
  shown cl_out st1 = [Cubes cl]
  ∧ shown list_out st2 = [Text "No results."]
  ∧ shown cl_out st2 = [Cubes cl].
Proof.
  intros Hc Hq1 Hraw Hload Hq2 st1 st2.
  assert (Hst1 : st1 = rendered cl (loading (dedup raw) (listed d1 k1 q1 raw st))).
  { subst st1. rewrite (handle_query_eq _ _ _ _ _ _ Hc Hq1). simpl.
    by rewrite (dedup_nonempty _ Hraw), Hload. }
  assert (Hc1 : client st1 = Some c).
  { destruct (handle_query_frame d1 k1 q1 st) as (_ & Hcl & _). fold st1 in Hcl.
    congruence. }
  assert (Hs1 : shown cl_out st1 = [Cubes cl]).
  { rewrite Hst1. unfold shown, rendered, loading.
    by repeat (rewrite view_record; simpl). }
  assert (Hst2 : st2 = listed d2 k2 q2 [] st1).
  { subst st2. rewrite (handle_query_eq _ _ _ _ _ _ Hc1 Hq2). simpl.
    by rewrite dedup_nil. }
  split; [exact Hs1|]. split.
  - rewrite Hst2, shown_listed. by rewrite dedup_nil.
  - rewrite Hst2. unfold shown, listed. rewrite dedup_nil. simpl.
    repeat (rewrite view_record; simpl). exact Hs1.
Qed.

Lemma ops_of_record r e st :
  ops_of r (log (record e st)) =
  ops_of r (log st) ++ match e with
                       | Out r' op => if decide (r' = r) then [op] else []
                       | _ => []
                       end.
Proof. apply ops_of_snoc. Qed.

Lemma view_ops r st st' :
  ops_of r (log st') = ops_of r (log st) → view r st' = view r st.
Proof. unfold view. by intros ->. Qed.

(** Drops from a log's tail the effects that are not output to [r]. *)
Ltac other_region :=
  simpl; rewrite ?ops_of_snoc; repeat case_decide; try discriminate;
  rewrite ?app_nil_r; try reflexivity.

Lemma handle_query_ops_login db_name coll_name query_dict st :
  ops_of login_output (log (snd (handle_query db_name coll_name query_dict st)))
  = ops_of login_output (log st).
Proof.
  destruct (client st) as [c|] eqn:Hc.
  - destruct (client_query c db_name coll_name query_dict) as [raw|e] eqn:Hq.
    + rewrite (handle_query_eq _ _ _ _ _ _ Hc Hq). simpl. unfold listed.
      destruct (len_true (dedup raw)); simpl.
      * destruct (iris_load (dedup raw)); unfold rendered, loading; other_region.
      * other_region.
    + rewrite (handle_query_query_raises _ _ _ _ _ _ Hc Hq). other_region.
  - by rewrite (handle_query_unbound _ _ _ _ Hc).
Qed.

Lemma on_button_click_ops_login st :
  ops_of login_output (log (snd (on_button_click st))) = ops_of login_output (log st).
Proof.
  unfold on_button_click, bind, gets, lift.
  destruct (literal_eval (tx_value (query st))) as [q|e]; simpl; [|reflexivity].
  apply handle_query_ops_login.
Qed.

(** X4: a search changes no widget and not the client, and writes nothing
    to the login region: whatever its outcome, the selections and the query
    text are as before, and only the log has grown. *)
Theorem on_button_click_touches_only_results st :
  let st' := snd (on_button_click st) in
  widgets st' = widgets st
  ∧ client st' = client st
  ∧ view login_output st' = view login_output st
  ∧ extends st st'.
Proof.
  destruct (on_button_click_frame st) as (Hw & Hc & Hex). simpl.
  split; [exact Hw|]. split; [exact Hc|]. split; [|exact Hex].
  apply view_ops, on_button_click_ops_login.
Qed.

(** ** More on [on_select_change] *)

(** X5: [on_select_change] either succeeds or leaves everything as it was.
    A store the bound client does not know, or no store at all, raises
    [KeyError] with that key; whenever the callback raises, the state is
    unchanged, so the sub-collection selector keeps its old options; and
    when it returns it has written to no region and touched no widget but
    the sub-collection selector. *)
Theorem on_select_change_unknown_store st ev :
  (∀ c, client st = Some c →
     (∀ k, new ev = Some k → k ∉ keys (collection_names c)) →
     on_select_change ev st = (Raised (KeyError (new ev)), st))
  ∧ (∀ e st', on_select_change ev st = (Raised e, st') →
       st' = st ∧ (e = NameError "client" ∨ e = KeyError (new ev)))
  ∧ (∀ st', on_select_change ev st = (Returned tt, st') →
       log st' = log st
       ∧ (pw st', login st', db st', query st', search st')
         = (pw st, login st, db st, query st, search st)).
Proof.
  split; [|split].
  - intros c Hc Hnew. callback. rewrite Hc. simpl.
    destruct (new ev) as [k|]; simpl; [|reflexivity].
    destruct (dict_get (collection_names c) k) eqn:Hk; simpl; [|reflexivity].
    exfalso. apply (Hnew k eq_refl). apply dict_get_keys. eauto.
  - intros e st'. callback. destruct (client st) as [c|]; simpl.
    + destruct (new ev) as [k|]; simpl.
      * destruct (dict_get (collection_names c) k); simpl; [discriminate|].
        intros [= <- <-]. auto.
      * intros [= <- <-]. auto.
    + intros [= <- <-]. auto.
  - intros st' Hret. destruct (on_select_change_frame ev st) as (Hw & _ & _ & Hl).
    rewrite Hret in Hw, Hl. simpl in Hw, Hl. auto.
Qed.

(** ** More on [authenticate] *)

(** X6: one click, one attempt, one line.  [authenticate] calls the
    client's constructor exactly once, with the connection string built
    from the password field, and prints exactly one line to the login
    region, the success line or the failure line with the error's text; it
    sends no query and loads nothing. *)
Lemma authenticate_try_log st :
  log (snd (authenticate_try st)) = log st ++ [Connect (conn_str_of (tx_value (pw st)))].
Proof.
  pose proof (authenticate_try_cases st) as Hcases. simpl in Hcases.
  destruct (Client_new _) as [c|e]; [|by rewrite Hcases].
  destruct (decide _); [by rewrite Hcases|].
  destruct (decide _); [by rewrite Hcases|].
  destruct (reselect _ _) as [k|]; [|by rewrite Hcases].
  destruct Hcases as (colls & _ & Hcases). by rewrite Hcases.
Qed.

Theorem authenticate_effects st :
  ∃ m, log (snd (authenticate st))
       = log st ++ [Connect (conn_str_of (tx_value (pw st)));
                    Out login_output (Emit (Text m))]
    ∧ (match authenticate_try st with
       | (Returned _, _) => m = login_ok
       | (Raised e, _) => m = login_failed e
       end)
    ∧ loads (snd (authenticate st)) = loads st.
Proof.
  rewrite authenticate_eq.
  pose proof (authenticate_try_log st) as Hlog.
  destruct (authenticate_try st) as [[[]|e] st1]; simpl in *;
    eexists; (split; [by rewrite Hlog, <- app_assoc|]);
    (split; [reflexivity|]);
    unfold loads in *; simpl; rewrite Hlog, !omap_app; simpl;
    by rewrite !app_nil_r.
Qed.

(** X7: a login that brings new stores fills both selectors.  When the
    constructor returns a client with at least one store, its store list is
    not the list of options the store selector shows, and the store selector
    holds a value other than the client's first store (as the freshly created
    widgets do with their placeholder), [authenticate] ends with the store
    selector offering the client's stores with the first one selected, the
    sub-collection selector offering that store's sub-collections (the first
    of them selected, if they are new and something was selected), the query
    field and the search button enabled, and the success line printed. *)
Theorem authenticate_fills_selectors st c k colls rest v :
  Client_new (conn_str_of (tx_value (pw st))) = Returned c →
  collection_names c = (k, colls) :: rest →
  dd_options (db st) ≠ k :: keys rest →
  dd_value (db st) = Some v → v ≠ k →
  let st' := snd (authenticate st) in
  client st' = Some c
  ∧ dd_options (db st') = k :: keys rest
  ∧ dd_value (db st') = Some k
  ∧ dd_options (coll st') = colls
  ∧ (dd_options (coll st) ≠ colls → is_Some (dd_value (coll st)) →
     dd_value (coll st') = head colls)
  ∧ tx_disabled (query st') = false
  ∧ bt_disabled (search st') = false
  ∧ last (shown login_output st') = Some (Text login_ok).
Proof.
  intros Hnew Hnames Hopts Hv Hne st'. subst st'. rewrite authenticate_eq.
  pose proof (authenticate_try_cases st) as Hcases. simpl in Hcases.
  rewrite Hnew, Hnames in Hcases. simpl in Hcases.
  destruct (decide _) as [Heq|_]; [congruence|].
  unfold reselect in Hcases. rewrite Hv in Hcases. simpl in Hcases.
  destruct (decide _) as [Heq|_]; [congruence|].
  destruct Hcases as (colls' & Hcolls & Hcases).
  rewrite String.eqb_refl in Hcolls. injection Hcolls as <-.
  rewrite Hcases. simpl. rewrite with_options_options.
  repeat split; [|apply last_shown_emit].
  intros Hother [w Hw]. unfold with_options.
  destruct (decide _) as [Heq|_]; [congruence|]. simpl.
  unfold reselect. by rewrite Hw.
Qed.

(** X15: a login that brings the stores already on offer keeps the
    selection.  When the constructor returns a client whose store list is the
    list of options the store selector shows, as at a second login to the
    same service, [authenticate] leaves both selectors as they are, with
    whatever the user had selected; it binds the client, enables the query
    field and the search button and prints the success line. *)
Theorem authenticate_keeps_selection st c :
  Client_new (conn_str_of (tx_value (pw st))) = Returned c →
  keys (collection_names c) = dd_options (db st) →
  let st' := snd (authenticate st) in
  db st' = db st ∧ coll st' = coll st
  ∧ client st' = Some c
  ∧ tx_disabled (query st') = false
  ∧ bt_disabled (search st') = false
  ∧ last (shown login_output st') = Some (Text login_ok).
Proof.
  intros Hnew Hsame st'. subst st'. rewrite authenticate_eq.
  pose proof (authenticate_try_cases st) as Hcases. simpl in Hcases.
  rewrite Hnew in Hcases.
  destruct (decide _) as [_|Hne]; [|congruence].
  rewrite Hcases. simpl. repeat split. apply last_shown_emit.
Qed.

(** ** A failed login and the searches around it *)

Lemma handle_query_congr db_name coll_name query_dict st1 st2 :
  client st1 = client st2 →
  view list_out st1 = view list_out st2 →
  view cl_out st1 = view cl_out st2 →
  let out1 := handle_query db_name coll_name query_dict st1 in
  let out2 := handle_query db_name coll_name query_dict st2 in
  fst out1 = fst out2
  ∧ view list_out (snd out1) = view list_out (snd out2)
  ∧ view cl_out (snd out1) = view cl_out (snd out2).
Proof.
  intros Hc Hl Hcl. simpl. destruct (client st2) as [c|] eqn:Hc2.
  - destruct (client_query c db_name coll_name query_dict) as [raw|e] eqn:Hq.
    + rewrite (handle_query_eq _ _ _ _ _ _ Hc Hq), (handle_query_eq _ _ _ _ _ _ Hc2 Hq).
      simpl. unfold listed.
      destruct (len_true (dedup raw)); simpl.
      * destruct (iris_load (dedup raw)); simpl; unfold rendered, loading;
          repeat (rewrite view_record; simpl); auto.
      * repeat (rewrite view_record; simpl). auto.
    + rewrite (handle_query_query_raises _ _ _ _ _ _ Hc Hq),
        (handle_query_query_raises _ _ _ _ _ _ Hc2 Hq). simpl.
      repeat (rewrite view_record; simpl). auto.
  - rewrite (handle_query_unbound _ _ _ _ Hc), (handle_query_unbound _ _ _ _ Hc2).
    simpl. auto.
Qed.

(** X8: a login whose constructor raises does not disturb the session.  It
    changes no widget and keeps the client bound before; a search made after
    it ends as it would have ended without it and shows the same in both
    result regions. *)
Theorem failed_login_keeps_session st e :
  Client_new (conn_str_of (tx_value (pw st))) = Raised e →
  let st' := snd (authenticate st) in
  widgets st' = widgets st
  ∧ client st' = client st
  ∧ fst (on_button_click st') = fst (on_button_click st)
  ∧ shown list_out (snd (on_button_click st')) = shown list_out (snd (on_button_click st))
  ∧ shown cl_out (snd (on_button_click st')) = shown cl_out (snd (on_button_click st)).
Proof.
  intros Hnew st'. subst st'. rewrite authenticate_eq.
  pose proof (authenticate_try_cases st) as Hcases. simpl in Hcases.
  rewrite Hnew in Hcases. rewrite Hcases. simpl.
  set (st' := record _ (record _ st)).
  assert (Hw : widgets st' = widgets st) by reflexivity.
  assert (Hc : client st' = client st) by reflexivity.
  assert (Hl : view list_out st' = view list_out st).
  { subst st'. by repeat (rewrite view_record; simpl). }
  assert (Hcl : view cl_out st' = view cl_out st).
  { subst st'. by repeat (rewrite view_record; simpl). }
  split; [exact Hw|]. split; [exact Hc|].
  unfold on_button_click, bind, gets, lift, shown.
  change (dd_value (db st')) with (dd_value (db st)).
  change (dd_value (coll st')) with (dd_value (coll st)).
  change (tx_value (query st')) with (tx_value (query st)).
  destruct (literal_eval (tx_value (query st))) as [q|e']; simpl.
  - destruct (handle_query_congr (dd_value (db st)) (dd_value (coll st)) q st' st Hc Hl Hcl)
      as (H1 & H2 & H3). simpl in *. by rewrite H1, H2, H3.
  - by rewrite Hl, Hcl.
Qed.

(** ** The session in the states the widgets can reach *)

Lemma db_set_value_db v st : db (snd (db_set_value v st)) = with_value v (db st).
Proof.
  unfold db_set_value, bind, gets, modify. simpl.
  destruct (decide _); [reflexivity|].
  match goal with |- context [on_select_change ?ev ?s] =>
    destruct (on_select_change_frame ev s) as (Hw & _) end.
  simpl in Hw. by injection Hw as _ _ -> _ _.
Qed.

Lemma session_ok_init : session_ok init.
Proof. unfold session_ok. simpl. auto. Qed.

Lemma session_ok_step st ev : consistent st → session_ok st → session_ok (step st ev).
Proof.
  intros (_ & _ & _ & Hlogin & _) Hok.
  destruct (decide (ev = ClickLogin)) as [->|Hev].
  - rewrite (login_step _ Hlogin), authenticate_eq.
    pose proof (authenticate_try_cases st) as Hcases. simpl in Hcases.
    destruct (Client_new _) as [c|e].
    + destruct (decide _) as [Hsame|Hnew].
      * rewrite Hcases. unfold session_ok. simpl. by rewrite Hsame.
      * destruct (decide _); [by rewrite Hcases|].
        destruct (reselect _ _) as [k|]; [|by rewrite Hcases].
        destruct Hcases as (colls & _ & Hcases). by rewrite Hcases.
    + rewrite Hcases. exact Hok.
  - destruct (step_frame st ev Hev) as (Hflags & Hc & _).
    injection Hflags as _ _ _ _ _ Hs.
    assert (Hdb : dd_options (db (step st ev)) = dd_options (db st)
                  ∧ (dd_value (db (step st ev)) = dd_value (db st)
                     ∨ ∃ v, v ∈ dd_options (db st)
                            ∧ dd_value (db (step st ev)) = Some v)).
    { unfold step, dispatch. destruct ev; try done.
      - destruct (tx_disabled (pw st)); simpl; auto.
      - destruct (dd_disabled (db st)); simpl; [auto|].
        destruct (decide _) as [Hin|]; simpl; [|auto].
        rewrite db_set_value_db. simpl. eauto.
      - destruct (dd_disabled (coll st)); simpl; [auto|].
        destruct (decide _); simpl; auto.
      - destruct (tx_disabled (query st)); simpl; auto.
      - destruct (bt_disabled (search st)); simpl; [auto|].
        destruct (on_button_click_frame st) as (Hw & _). simpl in Hw.
        unfold widgets in Hw. injection Hw as _ _ -> _ _ _. auto. }
    destruct Hdb as (Hopts & Hval).
    unfold session_ok in *. rewrite Hc. destruct (client st) as [c|].
    + by rewrite Hopts.
    + destruct Hok as (Ho & Hv & Hd). rewrite Hopts, Hs.
      split; [exact Ho|]. split; [|exact Hd].
      destruct Hval as [->|(v & Hin & ->)]; [exact Hv|].
      rewrite Ho in Hin. apply list_elem_of_singleton in Hin. by subst v.
Qed.

Lemma session_ok_run evs : session_ok (run evs).
Proof.
  induction evs as [|ev evs IH] using rev_ind.
  - apply session_ok_init.
  - rewrite run_snoc. apply session_ok_step; [apply consistent_run|exact IH].
Qed.

(** X9: the disabled search button guards the unbound client.  In every
    state the widgets can reach, an enabled search button means the global
    [client] is bound; so a click on it can only end in an exception of one
    of the three collaborators: the literal evaluation of the query text,
    the client's query, or the loader. *)
Theorem search_never_hits_unbound_client evs :
  let st := run evs in
  (bt_disabled (search st) = false → is_Some (client st))
  ∧ (∀ e, fst (dispatch ClickSearch st) = Raised e →
       literal_eval (tx_value (query st)) = Raised e
       ∨ (∃ c query_dict,
            client st = Some c
            ∧ literal_eval (tx_value (query st)) = Returned query_dict
            ∧ client_query c (dd_value (db st)) (dd_value (coll st)) query_dict
              = Raised e)
       ∨ (∃ files, iris_load files = Raised e)).
Proof.
  intros st.
  assert (Hbound : bt_disabled (search st) = false → is_Some (client st)).
  { intros Hen. pose proof (session_ok_run evs) as Hok. fold st in Hok.
    unfold session_ok in Hok. destruct (client st); [eauto|].
    destruct Hok as (_ & _ & Hd). congruence. }
  split; [exact Hbound|]. intros e. unfold dispatch.
  destruct (bt_disabled (search st)) eqn:Hen; [discriminate|].
  destruct (Hbound eq_refl) as [c Hc].
  unfold on_button_click, bind, gets, lift.
  destruct (literal_eval (tx_value (query st))) as [q|e'] eqn:Hlit; simpl;
    [|intros [= ->]; by left].
  destruct (client_query c (dd_value (db st)) (dd_value (coll st)) q) as [raw|e'] eqn:Hq.
  - rewrite (handle_query_eq _ _ _ _ _ _ Hc Hq). simpl.
    destruct (len_true (dedup raw)); [|discriminate].
    destruct (iris_load (dedup raw)) eqn:Hload; simpl; [discriminate|].
    intros [= ->]. right. right. eauto.
  - rewrite (handle_query_query_raises _ _ _ _ _ _ Hc Hq). simpl.
    intros [= ->]. right. left. eauto.
Qed.

(** X10: choosing a store never fails.  In every state the widgets can
    reach, whatever store the user picks in the store selector, the event
    returns normally: the selector only offers the stores of the bound
    client, and before any client is bound it offers nothing to change to.
    A store picked from the offered ones is then the selector's value. *)
Theorem select_store_never_fails evs v :
  let st := run evs in
  fst (dispatch (SelectDb v) st) = Returned tt
  ∧ (v ∈ dd_options (db st) → dd_value (db (step st (SelectDb v))) = Some v).
Proof.
  intros st. pose proof (session_ok_run evs) as Hok. fold st in Hok.
  destruct (consistent_run evs) as (Hdb & _). fold st in Hdb.
  split.
  - unfold dispatch. rewrite Hdb.
    destruct (decide (v ∈ dd_options (db st))) as [Hin|]; [|reflexivity].
    unfold db_set_value, bind, gets, modify. simpl.
    destruct (decide (dd_value (db st) = Some v)) as [|Hne]; [reflexivity|].
    unfold session_ok in Hok. destruct (client st) as [c|] eqn:Hc.
    + rewrite Hok in Hin. apply dict_get_keys in Hin as [colls Hcolls].
      callback. rewrite Hc. simpl. by rewrite Hcolls.
    + destruct Hok as (Ho & Hv & _). rewrite Ho in Hin.
      apply list_elem_of_singleton in Hin. congruence.
  - intros Hin. unfold step, dispatch. rewrite Hdb.
    destruct (decide (v ∈ dd_options (db st))); [|done].
    by rewrite db_set_value_db.
Qed.

(** ** The login region *)

Lemma login_failed_not_ok e : login_failed e ≠ login_ok.
Proof. unfold login_failed, login_ok. rewrite !append_cons. discriminate. Qed.

Lemma step_ops_login st ev :
  ev ≠ ClickLogin →
  ops_of login_output (log (step st ev)) = ops_of login_output (log st).
Proof.
  intros Hev. unfold step, dispatch. destruct ev; try done.
  - destruct (tx_disabled (pw st)); reflexivity.
  - destruct (dd_disabled (db st)); simpl; [reflexivity|].
    destruct (decide _); simpl; [|reflexivity].
    destruct (db_set_value_frame (Some v) st) as (_ & _ & _ & _ & Hl).
    simpl in Hl. by rewrite Hl.
  - destruct (dd_disabled (coll st)); simpl; [reflexivity|].
    destruct (decide _); reflexivity.
  - destruct (tx_disabled (query st)); reflexivity.
  - destruct (bt_disabled (search st)); simpl; [reflexivity|].
    apply on_button_click_ops_login.
Qed.

Lemma login_step_ops st :
  bt_disabled (login st) = false →
  ∃ m, ops_of login_output (log (step st ClickLogin))
       = ops_of login_output (log st) ++ [Emit (Text m)]
    ∧ match authenticate_try st with
      | (Returned _, _) => m = login_ok
      | (Raised e, _) => m = login_failed e
      end.
Proof.
  intros Hen. rewrite (login_step _ Hen), authenticate_eq.
  pose proof (authenticate_try_log st) as Hlog.
  destruct (authenticate_try st) as [[[]|e] st1]; simpl in *;
    eexists; (split; [|reflexivity]);
    rewrite ops_of_snoc, Hlog, ops_of_snoc;
    (case_decide; [by rewrite app_nil_r|done]).
Qed.

Lemma emit_fold l : fold_left out_step (Emit <$> l) ([], false) = (l, false).
Proof.
  induction l as [|i l IH] using rev_ind; [reflexivity|].
  by rewrite fmap_app, fold_left_app, IH.
Qed.

Lemma login_journal_step evs ev :
  ops_of login_output (log (run evs)) = Emit <$> shown login_output (run evs) →
  ∃ l, ops_of login_output (log (run (evs ++ [ev])))
       = Emit <$> (shown login_output (run evs) ++ l)
     ∧ shown login_output (run (evs ++ [ev])) = shown login_output (run evs) ++ l
     ∧ length l = (if decide (ev = ClickLogin) then 1 else 0)
     ∧ Forall (λ i, i = Text login_ok ∨ ∃ e, i = Text (login_failed e)) l.
Proof.
  intros Hops. rewrite run_snoc.
  destruct (decide (ev = ClickLogin)) as [->|Hev].
  - destruct (consistent_run evs) as (_ & _ & _ & Hen & _).
    destruct (login_step_ops _ Hen) as (m & Hm & Hkind).
    exists [Text m]. rewrite fmap_app, <- Hops. split; [exact Hm|].
    split; [|split; [reflexivity|]].
    + unfold shown at 1, view. rewrite Hm, Hops, fold_left_app, emit_fold. reflexivity.
    + constructor; [|constructor].
      destruct (authenticate_try (run evs)) as [[[]|e] st1]; subst m; eauto.
  - exists []. rewrite app_nil_r, (step_ops_login _ _ Hev).
    split; [exact Hops|]. split; [|split; [reflexivity|constructor]].
    unfold shown, view. by rewrite (step_ops_login _ _ Hev).
Qed.

Lemma login_clicks_snoc evs ev :
  login_clicks (evs ++ [ev]) = login_clicks evs + (if decide (ev = ClickLogin) then 1 else 0).
Proof. induction evs as [|ev' evs IH]; simpl; [lia|]. rewrite IH. lia. Qed.

Lemma login_journal evs :
  ops_of login_output (log (run evs)) = Emit <$> shown login_output (run evs)
  ∧ length (shown login_output (run evs)) = login_clicks evs
  ∧ Forall (λ i, i = Text login_ok ∨ ∃ e, i = Text (login_failed e))
      (shown login_output (run evs)).
Proof.
  induction evs as [|ev evs IH] using rev_ind; [by repeat split|].
  destruct IH as (Hops & Hlen & Hkind).
  destruct (login_journal_step evs ev Hops) as (l & Hops' & Hshown & Hl & Hkl).
  rewrite Hshown. split; [exact Hops'|]. split; [|by apply Forall_app].
  by rewrite length_app, Hlen, Hl, login_clicks_snoc.
Qed.

(** X11: the login region is a journal.  It is never cleared: it shows one
    line for every click on the login button, in the order of the clicks,
    each the success line or a failure line, and no other event adds to it
    or removes from it. *)
Theorem login_region_accumulates evs :
  length (shown login_output (run evs)) = login_clicks evs
  ∧ Forall (λ i, i = Text login_ok ∨ ∃ e, i = Text (login_failed e))
      (shown login_output (run evs))
  ∧ (∀ ev, ∃ l, shown login_output (run (evs ++ [ev])) = shown login_output (run evs) ++ l
             ∧ length l = if decide (ev = ClickLogin) then 1 else 0).
Proof.
  destruct (login_journal evs) as (Hops & Hlen & Hkind).
  split; [exact Hlen|]. split; [exact Hkind|].
  intros ev. destruct (login_journal_step evs ev Hops) as (l & _ & Hshown & Hl & _).
  eauto.
Qed.

Lemma logged_in_ops st :
  logged_in st ↔ Emit (Text login_ok) ∈ ops_of login_output (log st).
Proof.
  unfold logged_in, ops_of. rewrite list_elem_of_omap. split.
  - intros Hin. eexists. split; [exact Hin|]. simpl. try case_decide; done.
  - intros (eff & Hin & Heff). destruct eff as [r op| | |]; try discriminate.
    destruct (decide (r = login_output)) as [->|]; [|discriminate].
    injection Heff as ->. exact Hin.
Qed.

(** Once a login has succeeded the query field and the search button are
    enabled, in every state the widgets can reach. *)
Lemma logged_in_enabled evs :
  logged_in (run evs) →
  tx_disabled (query (run evs)) = false ∧ bt_disabled (search (run evs)) = false.
Proof.
  induction evs as [|ev evs IH] using rev_ind.
  - unfold logged_in. simpl. intros Hin. by apply elem_of_nil in Hin.
  - rewrite run_snoc. set (st := run evs) in *.
    destruct (decide (ev = ClickLogin)) as [->|Hev].
    + destruct (consistent_run evs) as (_ & _ & _ & Hen & _). fold st in Hen.
      intros Hin. rewrite (login_step _ Hen), authenticate_eq.
      destruct (authenticate_try st) as [[[]|e] st1] eqn:Htry; simpl.
      * destruct (authenticate_try_returns _ _ Htry)
          as (c & _ & _ & _ & _ & Hq & Hs & _). auto.
      * destruct (authenticate_try_raises _ _ _ Htry) as (_ & Hq & Hs & _).
        rewrite Hq, Hs. apply IH. apply logged_in_ops.
        apply logged_in_ops in Hin.
        destruct (login_step_ops _ Hen) as (m & Hm & Hkind).
        rewrite Htry in Hkind. rewrite Hm in Hin.
        apply elem_of_app in Hin as [Hin|Hin]; [exact Hin|].
        apply list_elem_of_singleton in Hin. injection Hin as Hin.
        subst m. by destruct (login_failed_not_ok e).
    + destruct (step_frame st ev Hev) as (Hflags & _).
      injection Hflags as _ _ _ _ Hq Hs. rewrite Hq, Hs.
      intros Hin. apply IH. apply logged_in_ops. apply logged_in_ops in Hin.
      by rewrite (step_ops_login _ _ Hev) in Hin.
Qed.

(** X12: the query controls tell whether a login has succeeded.  In every
    state the widgets can reach, the query field is enabled exactly when
    the search button is, and exactly when the login region shows a success
    line; so they are never disabled again once a login has succeeded. *)
Theorem query_controls_follow_login evs :
  let st := run evs in
  (tx_disabled (query st) = false ↔ Text login_ok ∈ shown login_output st)
  ∧ (bt_disabled (search st) = false ↔ Text login_ok ∈ shown login_output st)
  ∧ (∀ evs', Text login_ok ∈ shown login_output st →
       tx_disabled (query (run (evs ++ evs'))) = false
       ∧ bt_disabled (search (run (evs ++ evs'))) = false).
Proof.
  cbv zeta.
  assert (Hshown : ∀ evs0, logged_in (run evs0)
            ↔ Text login_ok ∈ shown login_output (run evs0)).
  { intros evs0. rewrite logged_in_ops.
    destruct (login_journal evs0) as (-> & _). rewrite list_elem_of_fmap. split.
    - intros (i & Hi & Hin). by injection Hi as <-.
    - intros Hin. eauto. }
  destruct (consistent_run evs) as (_ & _ & _ & _ & Hen & _).
  split; [|split].
  - rewrite <- (Hshown evs). split; [auto|]. intros Hin.
    by destruct (logged_in_enabled evs Hin).
  - rewrite <- (Hshown evs). split; [auto|]. intros Hin.
    by destruct (logged_in_enabled evs Hin).
  - intros evs' Hin. apply logged_in_enabled. apply Hshown in Hin.
    assert (Hext : ∀ l st, extends st (fold_left step l st)).
    { clear. induction l as [|ev l IH]; intros st; simpl; [apply extends_refl|].
      eapply extends_trans; [|apply IH].
      destruct (decide (ev = ClickLogin)) as [->|Hev].
      - unfold step, dispatch. destruct (bt_disabled (login st)); [apply extends_refl|].
        rewrite authenticate_eq.
        pose proof (authenticate_try_log st) as Hlog.
        destruct (authenticate_try st) as [[[]|e] st1]; simpl in *;
          eexists; simpl; rewrite Hlog, <- app_assoc; reflexivity.
      - by destruct (step_frame st ev Hev) as (_ & _ & Hex). }
    unfold run. rewrite fold_left_app. eapply logged_in_extends; [apply Hext|exact Hin].
Qed.

(** ** From the selectors to the query *)

Lemma handle_query_log_head db_name coll_name query_dict st c :
  client st = Some c →
  ∃ l, log (snd (handle_query db_name coll_name query_dict st))
       = log st ++ Query db_name coll_name query_dict :: l.
Proof.
  intros Hc.
  destruct (client_query c db_name coll_name query_dict) as [raw|e] eqn:Hq.
  - rewrite (handle_query_eq _ _ _ _ _ _ Hc Hq). simpl. unfold listed.
    destruct (len_true (dedup raw)); simpl.
    + destruct (iris_load (dedup raw)); simpl; eexists;
        rewrite <- !app_assoc; simpl; reflexivity.
    + eexists. rewrite <- !app_assoc. simpl. reflexivity.
  - rewrite (handle_query_query_raises _ _ _ _ _ _ Hc Hq). simpl. by eexists.
Qed.

(** X13: what is selected is what is queried.  From any state the widgets
    can reach in which the search button is enabled: after the user picks
    an offered store, then an offered sub-collection, and types a text that
    literal evaluation accepts, a click on the search button first sends the
    bound client one query, for exactly that store, that sub-collection and
    the evaluated filter. *)
Theorem search_queries_the_selection evs v w t query_dict :
  let st := run evs in
  bt_disabled (search st) = false →
  v ∈ dd_options (db st) →
  let st1 := step st (SelectDb v) in
  w ∈ dd_options (coll st1) →
  literal_eval t = Returned query_dict →
  let st3 := step (step st1 (SelectColl w)) (TypeQuery t) in
  is_Some (client st3)
  ∧ client st3 = client st
  ∧ ∃ l, log (step st3 ClickSearch)
         = log st3 ++ Query (Some v) (Some w) query_dict :: l.
Proof.
  intros st Hsearch Hv st1 Hw Hlit st3.
  destruct (consistent_run evs) as (Hdb & Hcoll & _ & _ & Hin & _).
  fold st in Hdb, Hcoll, Hin.
  destruct (logged_in_enabled evs (Hin (or_intror Hsearch))) as (Hquery & _).
  fold st in Hquery.
  assert (Hc : is_Some (client st)).
  { pose proof (session_ok_run evs) as Hok. fold st in Hok. unfold session_ok in Hok.
    destruct (client st); [eauto|]. destruct Hok as (_ & _ & Hd). congruence. }
  destruct Hc as [c Hc].
  destruct (step_frame st (SelectDb v) ltac:(discriminate)) as (Hflags & Hc1 & _).
  fold st1 in Hflags, Hc1. injection Hflags as _ _ _ Hcoll1 Hquery1 Hsearch1.
  assert (Hv1 : dd_value (db st1) = Some v).
  { subst st1. unfold step, dispatch. rewrite Hdb.
    destruct (decide (v ∈ dd_options (db st))); [|done]. by rewrite db_set_value_db. }
  assert (Hst3 : st3 = set_query (with_text t (query st1))
                         (set_coll (with_value (Some w) (coll st1)) st1)).
  { subst st3. unfold step at 2. unfold dispatch. rewrite Hcoll1, Hcoll.
    destruct (decide (w ∈ dd_options (coll st1))); [|done]. simpl.
    unfold step, dispatch. simpl. by rewrite Hquery1, Hquery. }
  assert (Hc3 : client st3 = Some c) by (rewrite Hst3; simpl; congruence).
  split; [eauto|]. split; [congruence|].
  unfold step, dispatch.
  assert (Hs3 : bt_disabled (search st3) = false)
    by (rewrite Hst3; simpl; congruence).
  rewrite Hs3. unfold on_button_click, bind, gets, lift.
  assert (Hdb3 : dd_value (db st3) = Some v) by (rewrite Hst3; exact Hv1).
  assert (Hcoll3 : dd_value (coll st3) = Some w) by (rewrite Hst3; reflexivity).
  assert (Ht3 : tx_value (query st3) = t) by (rewrite Hst3; reflexivity).
  rewrite Hdb3, Hcoll3, Ht3, Hlit. simpl.
  by apply (handle_query_log_head _ _ _ _ c).
Qed.

End GuiFacts.

(** * The callbacks on the small deployment *)

Lemma handle_query_dedup_witness :
  let st := run (env := demo_env) demo_login in
  let c := {| dc_names := demo_names |} in
  let st' := snd (handle_query (env := demo_env) (Some "S1") (Some "obs")
                    demo_query_dict st) in
  (client st = Some c
   ∧ client_query (Collaborators := demo_env) c (Some "S1") (Some "obs") demo_query_dict
     = Returned demo_raw
   ∧ demo_raw ≠ [])
  ∧ shown list_out st' =
      [Text "Matching files:"; Files (dedup demo_raw); Text (nl +:+ "Iris Cubes:")]
  ∧ NoDup (dedup demo_raw)
  ∧ list_to_set (dedup demo_raw) = ({["a.pp"; "b.pp"]} : gset string).
Proof.
  intros st c st'.
  assert (H1 : client st = Some c) by reflexivity.
  assert (H2 : client_query (Collaborators := demo_env) c (Some "S1") (Some "obs")
                 demo_query_dict = Returned demo_raw) by reflexivity.
  assert (H3 : demo_raw ≠ []) by discriminate.
  destruct (handle_query_dedup (env := demo_env) st c (Some "S1") (Some "obs")
              demo_query_dict demo_raw H1 H2 H3) as (Hs & Hn & _ & _ & Hex).
  split; [auto|]. split; [exact Hs|]. split; [exact Hn|].
  apply Hex. reflexivity.
Defined.

Lemma handle_query_no_results_witness :
  let st := run (env := demo_env_empty) demo_login in
  let c := {| dc_names := demo_names |} in
  (client st = Some c
   ∧ client_query (Collaborators := demo_env_empty) c (Some "S1") (Some "obs")
       demo_query_dict = Returned [])
  ∧ ∃ st', handle_query (env := demo_env_empty) (Some "S1") (Some "obs")
             demo_query_dict st = (Returned tt, st')
      ∧ shown list_out st' = [Text "No results."]
      ∧ loads st' = loads st.
Proof.
  intros st c.
  assert (H1 : client st = Some c) by reflexivity.
  assert (H2 : client_query (Collaborators := demo_env_empty) c (Some "S1") (Some "obs")
                 demo_query_dict = Returned []) by reflexivity.
  destruct (handle_query_no_results (env := demo_env_empty) st c (Some "S1")
              (Some "obs") demo_query_dict H1 H2) as (st' & Hr & Hs & Hl & _).
  split; [auto|]. exists st'. auto.
Defined.

(** C8 as the spec words it fails: the decoding is not deferred.  When
    [handle_query] returns, the loader has been called and the dataset
    region holds the cubes, not the placeholder; and a file the loader cannot
    read makes [handle_query] itself raise the loader's exception. *)
Lemma handle_query_decodes_before_returning :
  let done := handle_query (env := demo_env) (Some "S1") (Some "obs")
                demo_query_dict (run (env := demo_env) demo_login) in
  let failed := handle_query (env := demo_env_broken) (Some "S1") (Some "obs")
                  demo_query_dict (run (env := demo_env_broken) demo_login) in
  fst done = Returned tt
  ∧ loads (snd done) = [["a.pp"; "b.pp"]]
  ∧ shown cl_out (snd done) =
      [Cubes (env := demo_env) ["cube from a.pp"; "cube from b.pp"]]
  ∧ shown cl_out (snd done) ≠ [Text "..."]
  ∧ fst failed = Raised (LibraryError "ValueError" "not a recognised file format")
  ∧ shown cl_out (snd failed) = [Text "..."].
Proof.
  intros done failed.
  assert (Hshown : shown cl_out (snd done) =
            [Cubes (env := demo_env) ["cube from a.pp"; "cube from b.pp"]])
    by reflexivity.
  split; [reflexivity|]. split; [reflexivity|].
  split; [exact Hshown|]. split; [rewrite Hshown; discriminate|].
  split; reflexivity.
Qed.

Lemma handle_query_decodes_in_place_witness :
  let st := run (env := demo_env) demo_login in
  let c := {| dc_names := demo_names |} in
  (client st = Some c
   ∧ client_query (Collaborators := demo_env) c (Some "S1") (Some "obs") demo_query_dict
     = Returned demo_raw
   ∧ demo_raw ≠ [])
  ∧ ∃ st', handle_query (env := demo_env) (Some "S1") (Some "obs") demo_query_dict st
           = (Returned tt, st')
      ∧ shown cl_out st' = [Cubes (env := demo_env) ["cube from a.pp"; "cube from b.pp"]]
      ∧ loads st' = loads st ++ [dedup demo_raw].
Proof.
  intros st c.
  assert (H1 : client st = Some c) by reflexivity.
  assert (H2 : client_query (Collaborators := demo_env) c (Some "S1") (Some "obs")
                 demo_query_dict = Returned demo_raw) by reflexivity.
  assert (H3 : demo_raw ≠ []) by discriminate.
  pose proof (handle_query_decodes_in_place (env := demo_env) st c (Some "S1")
                (Some "obs") demo_query_dict demo_raw H1 H2 H3) as Hthm.
  split; [auto|].
  assert (Hload : iris_load (Collaborators := demo_env) (dedup demo_raw)
                  = Returned ["cube from a.pp"; "cube from b.pp"])
    by reflexivity.
  cbv zeta in Hthm. rewrite Hload in Hthm.
  destruct Hthm as (st' & Hr & _ & Hs & Hl). exists st'. auto.
Defined.

(** C3 as the spec words it fails: after a failed login from the widgets
    as created, neither selector is disabled. *)
Lemma failed_authenticate_selectors_enabled :
  let st' := snd (authenticate (env := demo_env) init) in
  fst (authenticate_try (env := demo_env) init)
    = Raised (LibraryError "ConfigurationError" "bad auth : Authentication failed.")
  ∧ dd_disabled (db st') = false
  ∧ dd_disabled (coll st') = false
  ∧ ¬ (dd_disabled (db st') = true ∧ dd_disabled (coll st') = true
       ∧ tx_disabled (query st') = true).
Proof.
  intros st'.
  assert (Hdb : dd_disabled (db st') = false) by reflexivity.
  split; [reflexivity|]. split; [exact Hdb|]. split; [reflexivity|].
  intros [Hdb' _]. rewrite Hdb in Hdb'. discriminate.
Qed.

Lemma failed_authenticate_keeps_flags_witness :
  let st := run (env := demo_env) [] in
  let e := LibraryError "ConfigurationError" "bad auth : Authentication failed." in
  let st1 := snd (authenticate_try (env := demo_env) st) in
  let st' := snd (authenticate (env := demo_env) st) in
  authenticate_try (env := demo_env) st = (Raised e, st1)
  ∧ disabled_flags st' = disabled_flags st
  ∧ dd_disabled (db st') = false
  ∧ dd_disabled (coll st') = false
  ∧ tx_disabled (query st') = true ∧ bt_disabled (search st') = true.
Proof.
  intros st e st1 st'.
  assert (H1 : authenticate_try (env := demo_env) st = (Raised e, st1))
    by reflexivity.
  destruct (failed_authenticate_keeps_flags (env := demo_env) [] e st1 H1)
    as (Hf & Hdb & Hcoll & Hq & _).
  split; [exact H1|]. split; [exact Hf|]. split; [exact Hdb|]. split; [exact Hcoll|].
  apply Hq. unfold logged_in. simpl. apply not_elem_of_nil.
Defined.

Lemma authenticate_without_stores_witness :
  let st := step (env := demo_env_bare) init (TypePassword demo_password) in
  let c := {| dc_names := [] |} in
  let st' := snd (authenticate (env := demo_env_bare) st) in
  (Client_new (Collaborators := demo_env_bare) (conn_str_of (tx_value (pw st))) = Returned c
   ∧ collection_names (Collaborators := demo_env_bare) c = []
   ∧ dd_options (db st) ≠ [] ∧ dd_value (db st) = Some log_in_first)
  ∧ client st' = Some c
  ∧ tx_disabled (query st') = true
  ∧ bt_disabled (search st') = true
  ∧ shown login_output st'
    = [Text (env := demo_env_bare)
         ("Login unsuccessful. Original error was:" +:+ nl +:+ "None")].
Proof.
  intros st c st'.
  assert (H1 : Client_new (Collaborators := demo_env_bare) (conn_str_of (tx_value (pw st)))
               = Returned c) by reflexivity.
  assert (H2 : collection_names (Collaborators := demo_env_bare) c = []) by reflexivity.
  assert (H3 : dd_options (db st) ≠ []) by discriminate.
  assert (H4 : dd_value (db st) = Some log_in_first) by reflexivity.
  destruct (authenticate_without_stores (env := demo_env_bare) st c log_in_first H1 H2 H3 H4)
    as (_ & _ & Hc & _ & _ & Hq & Hs & _).
  split; [auto|]. split; [exact Hc|].
  split; [unfold st'; by rewrite Hq|]. split; [unfold st'; by rewrite Hs|].
  reflexivity.
Defined.

Lemma selectors_stay_enabled_witness :
  let st := step (env := demo_env) init (TypePassword demo_password) in
  (tx_disabled (query (step st ClickLogin)) ≠ tx_disabled (query st))
  ∧ (∃ st1, authenticate_try (env := demo_env) st = (Returned tt, st1))
  ∧ tx_disabled (query (step st ClickLogin)) = false
  ∧ bt_disabled (search (step st ClickLogin)) = false
  ∧ dd_disabled (db (run (env := demo_env) demo_login)) = false
  ∧ dd_disabled (coll (run (env := demo_env) demo_login)) = false.
Proof.
  intros st.
  assert (Hafter : tx_disabled (query (step st ClickLogin)) = false) by reflexivity.
  assert (Hbefore : tx_disabled (query st) = true) by reflexivity.
  assert (H1 : tx_disabled (query (step st ClickLogin)) ≠ tx_disabled (query st))
    by (rewrite Hafter, Hbefore; discriminate).
  destruct (selectors_stay_enabled (env := demo_env))
    as (_ & _ & _ & _ & _ & Hrun & Honly).
  destruct (Honly st ClickLogin (or_introl H1)) as (_ & Htry & Hq & Hs).
  destruct (Hrun demo_login) as (Hdb & Hcoll).
  auto 10.
Defined.

Lemma on_select_change_replaces_options_witness :
  let st := run (env := demo_env) demo_login in
  let c := {| dc_names := demo_names |} in
  (client st = Some c ∧ "S2" ∈ keys (collection_names (Collaborators := demo_env) c)
   ∧ dd_value (db st) = Some "S1" ∧ "S1" ≠ "S2"
   ∧ "S2" ∈ dd_options (db st) ∧ dd_disabled (db st) = false)
  ∧ ∃ st', dispatch (env := demo_env) (SelectDb "S2") st = (Returned tt, st')
      ∧ dd_value (db st') = Some "S2"
      ∧ dd_options (coll st') = ["pp"; "netcdf"; "grib"].
Proof.
  intros st c.
  assert (H1 : client st = Some c) by reflexivity.
  assert (H2 : "S2" ∈ keys (collection_names (Collaborators := demo_env) c))
    by (change ("S2" ∈ ["S1"; "S2"]); right; left).
  assert (H3 : dd_value (db st) = Some "S1") by reflexivity.
  assert (H4 : "S1" ≠ "S2") by discriminate.
  assert (H5 : "S2" ∈ dd_options (db st))
    by (change ("S2" ∈ ["S1"; "S2"]); right; left).
  assert (H6 : dd_disabled (db st) = false) by reflexivity.
  destruct (on_select_change_replaces_options (env := demo_env) st c "S2" H1 H2)
    as (_ & Huser).
  destruct (Huser "S1" H3 H4 H5 H6) as (st' & Hr & Hv & Ho).
  split; [auto 10|]. exists st'. split; [exact Hr|]. split; [exact Hv|].
  assert (Hd : dict_get (collection_names (Collaborators := demo_env) c) "S2"
               = Some ["pp"; "netcdf"; "grib"]) by reflexivity.
  rewrite Hd in Ho. by injection Ho.
Defined.

Lemma on_select_change_needs_client_witness :
  let offered := set_db (env := demo_env)
                   {| dd_options := ["S1"; "S2"]; dd_value := Some "S1";
                      dd_disabled := false |} init in
  on_select_change (env := demo_env) {| old := Some log_in_first; new := Some "S1" |} init
    = (Raised (NameError "client"), init)
  ∧ fst (dispatch (env := demo_env) (SelectDb "S2") offered) = Raised (NameError "client")
  ∧ logged_in (run (env := demo_env) demo_login).
Proof.
  intros offered.
  destruct (on_select_change_needs_client (env := demo_env))
    as (Hunbound & Hevent & _ & Hneeds).
  split; [apply Hunbound; reflexivity|]. split.
  - apply Hevent; [reflexivity|reflexivity| |discriminate].
    change ("S2" ∈ ["S1"; "S2"]). right; left.
  - remember (on_select_change (env := demo_env) {| old := Some "S1"; new := Some "S2" |}
                (run (env := demo_env) demo_login)) as out eqn:Hout.
    assert (Hfst : fst out = Returned tt) by (rewrite Hout; reflexivity).
    destruct out as [r st']. simpl in Hfst. subst r.
    apply (Hneeds demo_login {| old := Some "S1"; new := Some "S2" |} st').
    symmetry. exact Hout.
Defined.

Lemma on_button_click_parse_failure_witness :
  let st := run (env := demo_env) (demo_login ++ [TypeQuery "{'standard_name': "]) in
  let e := LibraryError "SyntaxError" "invalid syntax" in
  (literal_eval (Collaborators := demo_env) (tx_value (query st)) = Raised e
   ∧ bt_disabled (search st) = false)
  ∧ on_button_click (env := demo_env) st = (Raised e, st)
  ∧ dispatch (env := demo_env) ClickSearch st = (Raised e, st).
Proof.
  intros st e.
  assert (H1 : literal_eval (Collaborators := demo_env) (tx_value (query st)) = Raised e)
    by reflexivity.
  assert (H2 : bt_disabled (search st) = false) by reflexivity.
  destruct (on_button_click_parse_failure (env := demo_env) st e H1) as (Hc & Hd).
  auto.
Defined.



(** * More runs on the small deployment *)

Lemma literal_eval_round_trip_lists_witness :
  let d : filter_dict :=
    [("attributes.STASH", VList [SInt 1; SInt 3; SInt 463]);
     ("mime_type", VScalar (SStr "pp"));
     ("cell_methods", VList [])] in
  (NoDup (keys d) ∧ forallb plain_entry d = true)
  ∧ literal_eval_filter (repr_filter d) = Evaluates d
  ∧ repr_filter d = "{'attributes.STASH': [1, 3, 463], 'mime_type': 'pp', 'cell_methods': []}".
Proof.
  intros d.
  assert (H1 : NoDup (keys d)) by (refine (bool_decide_unpack _ _); exact I).
  assert (H2 : forallb plain_entry d = true) by reflexivity.
  destruct (literal_eval_round_trip_lists d H1 H2) as (Hr & _).
  split; [auto|]. split; [exact Hr|]. reflexivity.
Defined.

Lemma handle_query_query_failure_witness :
  let st := run (env := demo_env_down) demo_login in
  let c := {| dc_names := demo_names |} in
  let e := LibraryError "ServerSelectionTimeoutError" "connection closed" in
  (client st = Some c
   ∧ client_query (Collaborators := demo_env_down) c (Some "S1") (Some "obs")
       demo_query_dict = Raised e)
  ∧ ∃ st', handle_query (env := demo_env_down) (Some "S1") (Some "obs")
             demo_query_dict st = (Raised e, st')
      ∧ view list_out st' = view list_out st
      ∧ view cl_out st' = view cl_out st
      ∧ loads st' = loads st.
Proof.
  intros st c e.
  assert (H1 : client st = Some c) by reflexivity.
  assert (H2 : client_query (Collaborators := demo_env_down) c (Some "S1") (Some "obs")
                 demo_query_dict = Raised e) by reflexivity.
  destruct (handle_query_query_failure (env := demo_env_down) st c (Some "S1")
              (Some "obs") demo_query_dict e H1 H2)
    as (st' & Hr & _ & Hl & Hcl & Hloads & _).
  split; [auto|]. exists st'. auto.
Defined.

Lemma empty_result_keeps_old_cubes_witness :
  let st := run (env := demo_env) demo_login in
  let c := {| dc_names := demo_names |} in
  let other : filter_dict := [("mime_type", VScalar (SStr "pp"))] in
  let cl := ["cube from a.pp"; "cube from b.pp"] in
  let st1 := snd (handle_query (env := demo_env) (Some "S1") (Some "obs")
                    demo_query_dict st) in
  let st2 := snd (handle_query (env := demo_env) (Some "S1") (Some "obs") other st1) in
  (client st = Some c
   ∧ client_query (Collaborators := demo_env) c (Some "S1") (Some "obs") demo_query_dict
     = Returned demo_raw
   ∧ demo_raw ≠ []
   ∧ iris_load (Collaborators := demo_env) (dedup demo_raw) = Returned cl
   ∧ client_query (Collaborators := demo_env) c (Some "S1") (Some "obs") other
     = Returned [])
  ∧ shown list_out st2 = [Text "No results."]
  ∧ shown cl_out st2 = [Cubes (env := demo_env) cl].
Proof.
  intros st c other cl st1 st2.
  assert (H1 : client st = Some c) by reflexivity.
  assert (H2 : client_query (Collaborators := demo_env) c (Some "S1") (Some "obs")
                 demo_query_dict = Returned demo_raw) by reflexivity.
  assert (H3 : demo_raw ≠ []) by discriminate.
  assert (H4 : iris_load (Collaborators := demo_env) (dedup demo_raw) = Returned cl)
    by reflexivity.
  assert (H5 : client_query (Collaborators := demo_env) c (Some "S1") (Some "obs") other
               = Returned []) by reflexivity.
  destruct (empty_result_keeps_old_cubes (env := demo_env) st c (Some "S1") (Some "obs")
              demo_query_dict demo_raw cl (Some "S1") (Some "obs") other H1 H2 H3 H4 H5)
    as (_ & Hl & Hcl).
  split; [auto 10|]. split; [exact Hl|exact Hcl].
Defined.

Lemma authenticate_fills_selectors_witness :
  let st := step (env := demo_env) init (TypePassword demo_password) in
  let c := {| dc_names := demo_names |} in
  let st' := snd (authenticate (env := demo_env) st) in
  (Client_new (Collaborators := demo_env) (conn_str_of (tx_value (pw st))) = Returned c
   ∧ collection_names (Collaborators := demo_env) c
     = ("S1", ["obs"; "model"]) :: [("S2", ["pp"; "netcdf"; "grib"])]
   ∧ dd_options (db st) ≠ ["S1"; "S2"]
   ∧ dd_value (db st) = Some log_in_first ∧ log_in_first ≠ "S1")
  ∧ dd_options (db st') = ["S1"; "S2"]
  ∧ dd_value (db st') = Some "S1"
  ∧ dd_options (coll st') = ["obs"; "model"]
  ∧ dd_value (coll st') = Some "obs"
  ∧ bt_disabled (search st') = false.
Proof.
  intros st c st'.
  assert (H1 : Client_new (Collaborators := demo_env) (conn_str_of (tx_value (pw st)))
               = Returned c) by reflexivity.
  assert (H2 : collection_names (Collaborators := demo_env) c
               = ("S1", ["obs"; "model"]) :: [("S2", ["pp"; "netcdf"; "grib"])])
    by reflexivity.
  assert (H3 : dd_options (db st) ≠ ["S1"; "S2"]) by discriminate.
  assert (H4 : dd_value (db st) = Some log_in_first) by reflexivity.
  assert (H5 : log_in_first ≠ "S1") by discriminate.
  destruct (authenticate_fills_selectors (env := demo_env) st c "S1" ["obs"; "model"]
              [("S2", ["pp"; "netcdf"; "grib"])] log_in_first H1 H2 H3 H4 H5)
    as (_ & Ho & Hv & Hco & Hcv & _ & Hs & _).
  split; [auto 10|]. split; [exact Ho|]. split; [exact Hv|]. split; [exact Hco|].
  split; [|exact Hs]. apply Hcv; [discriminate|by eexists].
Defined.

Lemma authenticate_keeps_selection_witness :
  let st := run (env := demo_env) (demo_login ++ [SelectDb "S2"; SelectColl "grib"]) in
  let c := {| dc_names := demo_names |} in
  let st' := snd (authenticate (env := demo_env) st) in
  (Client_new (Collaborators := demo_env) (conn_str_of (tx_value (pw st))) = Returned c
   ∧ keys (collection_names (Collaborators := demo_env) c) = dd_options (db st))
  ∧ dd_value (db st') = Some "S2"
  ∧ dd_options (coll st') = ["pp"; "netcdf"; "grib"]
  ∧ dd_value (coll st') = Some "grib".
Proof.
  intros st c st'.
  assert (H1 : Client_new (Collaborators := demo_env) (conn_str_of (tx_value (pw st)))
               = Returned c) by reflexivity.
  assert (H2 : keys (collection_names (Collaborators := demo_env) c) = dd_options (db st))
    by reflexivity.
  destruct (authenticate_keeps_selection (env := demo_env) st c H1 H2)
    as (Hdb & Hcoll & _).
  split; [auto|]. unfold st'. rewrite Hdb, Hcoll. repeat split.
Defined.

Lemma authenticate_reports_witness :
  let bad := LibraryError "ConfigurationError" "bad auth : Authentication failed." in
  let st := step (env := demo_env) init (TypePassword demo_password) in
  let c := {| dc_names := demo_names |} in
  (Client_new (Collaborators := demo_env)
     (conn_str_of (tx_value (pw (init (env := demo_env))))) = Raised bad
   ∧ Client_new (Collaborators := demo_env) (conn_str_of (tx_value (pw st))) = Returned c
   ∧ collection_names (Collaborators := demo_env) c ≠ [])
  ∧ authenticate (env := demo_env) init =
      (Returned tt,
       record (Out login_output (Emit (Text (login_failed bad))))
         (record (Connect (conn_str_of EmptyString)) init))
  ∧ tx_disabled (query (snd (authenticate (env := demo_env) st))) = false
  ∧ bt_disabled (search (snd (authenticate (env := demo_env) st))) = false
  ∧ dd_options (db (snd (authenticate (env := demo_env) st))) = ["S1"; "S2"].
Proof.
  intros bad st c.
  assert (H1 : Client_new (Collaborators := demo_env)
                 (conn_str_of (tx_value (pw (init (env := demo_env))))) = Raised bad)
    by reflexivity.
  assert (H2 : Client_new (Collaborators := demo_env) (conn_str_of (tx_value (pw st)))
               = Returned c) by reflexivity.
  assert (H3 : collection_names (Collaborators := demo_env) c ≠ []) by discriminate.
  destruct (authenticate_reports (env := demo_env) init) as (_ & Hfail & _).
  destruct (authenticate_reports (env := demo_env) st) as (_ & _ & _ & Hok).
  destruct (Hok c H2 H3) as (_ & Hq & Hs & _ & _ & Hopts).
  split; [auto|].
  split; [exact (Hfail bad H1)|]. split; [exact Hq|]. split; [exact Hs|].
  rewrite Hopts. reflexivity.
Defined.

Lemma failed_login_keeps_session_witness :
  let st := run (env := demo_env)
              (demo_login ++ [TypeQuery "{'standard_name': 'air_temperature'}";
                              ClickSearch; TypePassword "guess"]) in
  let e := LibraryError "ConfigurationError" "bad auth : Authentication failed." in
  let st' := snd (authenticate (env := demo_env) st) in
  Client_new (Collaborators := demo_env) (conn_str_of (tx_value (pw st))) = Raised e
  ∧ client st' = Some {| dc_names := demo_names |}
  ∧ widgets st' = widgets st
  ∧ fst (on_button_click (env := demo_env) st') = Returned tt
  ∧ shown cl_out (snd (on_button_click (env := demo_env) st'))
    = [Cubes (env := demo_env) ["cube from a.pp"; "cube from b.pp"]].
Proof.
  intros st e st'.
  assert (H1 : Client_new (Collaborators := demo_env) (conn_str_of (tx_value (pw st)))
               = Raised e) by reflexivity.
  destruct (failed_login_keeps_session (env := demo_env) st e H1)
    as (Hw & Hc & Hfst & _ & Hcl).
  fold st' in Hw, Hc, Hfst, Hcl.
  split; [exact H1|]. split; [rewrite Hc; reflexivity|]. split; [exact Hw|].
  split; [rewrite Hfst; reflexivity|]. rewrite Hcl. reflexivity.
Defined.

Lemma search_queries_the_selection_witness :
  let st := run (env := demo_env) demo_login in
  let t := "{'standard_name': 'air_temperature'}" in
  let st1 := step st (SelectDb "S2") in
  let st3 := step (step st1 (SelectColl "netcdf")) (TypeQuery t) in
  (bt_disabled (search st) = false ∧ "S2" ∈ dd_options (db st)
   ∧ "netcdf" ∈ dd_options (coll st1)
   ∧ literal_eval (Collaborators := demo_env) t = Returned demo_query_dict)
  ∧ ∃ l, log (step st3 ClickSearch)
         = log st3 ++ Query (env := demo_env) (Some "S2") (Some "netcdf")
                        demo_query_dict :: l.
Proof.
  intros st t st1 st3.
  assert (H1 : bt_disabled (search st) = false) by reflexivity.
  assert (H2 : "S2" ∈ dd_options (db st))
    by (change ("S2" ∈ ["S1"; "S2"]); right; left).
  assert (H3 : "netcdf" ∈ dd_options (coll st1))
    by (change ("netcdf" ∈ ["pp"; "netcdf"; "grib"]); right; left).
  assert (H4 : literal_eval (Collaborators := demo_env) t = Returned demo_query_dict)
    by reflexivity.
  destruct (search_queries_the_selection (env := demo_env) demo_login "S2" "netcdf" t
              demo_query_dict H1 H2 H3 H4) as (_ & _ & l & Hl).
  split; [auto|]. exists l. exact Hl.
Defined.
